(** * SQLite to Supabase migration script: a shallow embedding

    Source: [src/server/migrate-to-supabase.js].

    The script reads every row of six SQLite tables, reshapes each row into
    the payload of a Supabase write (an upsert keyed by a natural-key column
    for users, events, fests and registrations; a plain insert for
    attendance_status and qr_scan_logs), logs one line per row and finally
    counts rows at the destination.

    JavaScript objects are finite maps from property names to values
    ([gmap string jsval]); the object literals passed to the Supabase client
    are kept as the ordered list of properties the source writes.  Effects
    (console, SQLite handle, Supabase requests, thrown exceptions and
    [process.exit]) are threaded through a state-and-outcome monad. *)

From Stdlib Require Import ZArith String Ascii List Bool Lia.
From stdpp Require Import gmap strings list fin_maps pretty.

Local Open Scope string_scope.

(** ** JavaScript values *)

(** The values that flow through the script: what better-sqlite3 returns for
    a column (null, a number, a text), an absent property ([undefined]), the
    booleans produced by [=== 1], and the arrays and objects produced by
    [JSON.parse].  Numbers are the integers. *)
#[warnings="-register-all"]
Inductive jsval : Type :=
| JUndefined
| JNull
| JBool (b : bool)
| JNum (n : Z)
| JStr (s : string)
| JArr (items : list jsval)
| JObj (props : list (string * jsval)).

Lemma jsval_nested_ind (P : jsval -> Prop) :
  P JUndefined -> P JNull ->
  (forall b, P (JBool b)) -> (forall n, P (JNum n)) -> (forall s, P (JStr s)) ->
  (forall l, Forall P l -> P (JArr l)) ->
  (forall l, Forall (fun kv => P (snd kv)) l -> P (JObj l)) ->
  forall v, P v.
Proof.
  intros Hu Hn Hb Hz Hs Ha Ho.
  fix IH 1. intros [ | | b | n | s | l | l].
  - exact Hu.
  - exact Hn.
  - apply Hb.
  - apply Hz.
  - apply Hs.
  - apply Ha. induction l as [|x l IHl]; constructor; [apply IH | exact IHl].
  - apply Ho. induction l as [|[k x] l IHl]; constructor; [apply IH | exact IHl].
Qed.

Fixpoint jsval_eqb (a b : jsval) : bool :=
  match a, b with
  | JUndefined, JUndefined => true
  | JNull, JNull => true
  | JBool x, JBool y => Bool.eqb x y
  | JNum x, JNum y => Z.eqb x y
  | JStr x, JStr y => String.eqb x y
  | JArr xs, JArr ys =>
      (fix go (xs ys : list jsval) : bool :=
         match xs, ys with
         | [], [] => true
         | x :: xs', y :: ys' => jsval_eqb x y && go xs' ys'
         | _, _ => false
         end) xs ys
  | JObj ps, JObj qs =>
      (fix go (ps qs : list (string * jsval)) : bool :=
         match ps, qs with
         | [], [] => true
         | (k, x) :: ps', (l, y) :: qs' =>
             String.eqb k l && jsval_eqb x y && go ps' qs'
         | _, _ => false
         end) ps qs
  | _, _ => false
  end.

Lemma jsval_eqb_eq (a b : jsval) : jsval_eqb a b = true <-> a = b.
Proof.
  revert b. induction a as [ | | x | x | x | xs IH | ps IH] using jsval_nested_ind;
    intros [ | | y | y | y | ys | qs]; simpl; try (split; congruence).
  - rewrite Bool.eqb_true_iff. split; congruence.
  - rewrite Z.eqb_eq. split; congruence.
  - rewrite String.eqb_eq. split; congruence.
  - revert ys. induction IH as [|x xs Hx _ IHxs]; intros [|y ys];
      try (split; congruence).
    rewrite andb_true_iff, Hx. specialize (IHxs ys).
    split.
    + intros [-> H2]. apply IHxs in H2. congruence.
    + intros [= -> ->]. split; [reflexivity | apply IHxs; reflexivity].
  - revert qs. induction IH as [|[k x] ps Hx _ IHps]; intros [|[l y] qs];
      try (split; congruence).
    rewrite !andb_true_iff, String.eqb_eq. simpl in Hx. rewrite Hx.
    specialize (IHps qs).
    split.
    + intros [[-> ->] H2]. apply IHps in H2. congruence.
    + intros [= -> -> ->]. repeat split; apply IHps; reflexivity.
Qed.

#[global] Instance jsval_eq_dec : EqDecision jsval.
Proof.
  intros a b. destruct (jsval_eqb a b) eqn:E.
  - left. apply jsval_eqb_eq, E.
  - right. intros H. apply jsval_eqb_eq in H. congruence.
Defined.

(** ToBoolean: the test of [x ? a : b] and of [x || y]. *)
Definition truthy (v : jsval) : bool :=
  match v with
  | JUndefined | JNull => false
  | JBool b => b
  | JNum n => negb (n =? 0)%Z
  | JStr s => negb (String.eqb s EmptyString)
  | JArr _ | JObj _ => true
  end.

(** [v === n] for a number literal [n]: no conversion, so only the number
    [n] itself is equal to it. *)
Definition strict_eq_num (v : jsval) (n : Z) : bool :=
  match v with
  | JNum m => (m =? n)%Z
  | _ => false
  end.

(** [a || b] *)
Definition js_or (a b : jsval) : jsval := if truthy a then a else b.

(** [String.prototype.toLowerCase] on a string of bytes: the ASCII capitals
    are lowered and the other bytes kept.  No character outside ASCII
    lowercases to [y], [e] or [s], so the comparisons with ['yes'] and
    ['y'] come out as in JavaScript. *)
Definition lower_ascii (c : ascii) : ascii :=
  let n := nat_of_ascii c in
  if (65 <=? n)%nat && (n <=? 90)%nat then ascii_of_nat (n + 32) else c.

Fixpoint toLowerCase (s : string) : string :=
  match s with
  | EmptyString => EmptyString
  | String c rest => String (lower_ascii c) (toLowerCase rest)
  end.

(** A row returned by [db.prepare(...).all()], and a row stored at the
    destination: column name to value. *)
Abbreviation row := (gmap string jsval).

(** Property access [r.c]: an absent property reads as [undefined]. *)
Definition prop (r : row) (c : string) : jsval := default JUndefined (r !! c).

(** An object literal, in the order its properties are written. *)
Abbreviation literal := (list (string * jsval)).

(** ** Exceptions and computations that may throw *)

Inductive exn : Type :=
| SyntaxError (text : jsval)      (* thrown by [JSON.parse] *)
| SqliteError (sql : string).     (* thrown by [db.prepare] *)

Inductive result (A : Type) : Type :=
| Ok (a : A)
| Raise (e : exn).
Arguments Ok {A} a.
Arguments Raise {A} e.

Definition result_bind {A B} (r : result A) (k : A -> result B) : result B :=
  match r with
  | Ok a => k a
  | Raise e => Raise e
  end.

Declare Scope result_scope.
Delimit Scope result_scope with result.
Notation "'let?' x ':=' r 'in' k" := (result_bind r (fun x => k))
  (at level 10, x name, r at level 100, k at level 200) : result_scope.

(** ** Requests to the destination and the external parties *)

(** [supabase.from(t).upsert(body, { onConflict: k })] and
    [supabase.from(t).insert(body)]. *)
Inductive write_op : Type :=
| Upsert (onConflict : string)
| Insert.

Record request : Type := Request {
  rq_table : string;
  rq_op : write_op;
  rq_body : literal
}.

(** Destination tables: table name to the rows it holds, oldest first. *)
Abbreviation tables := (gmap string (list row)).

(** What the script calls but does not define.
    - [JSON_parse] is the builtin [JSON.parse], applied to any value; [None]
      stands for a thrown SyntaxError.
    - [supabase_error] is the answer of the Supabase backend to a write
      request, given the rows it holds: [Some message] is the [error] field
      of the response (constraint violation, network failure, bad payload;
      the client returns these, it does not throw), [None] an accepted
      write.
    - [supabase_count_error] is its answer to a count of a table, in the
      same way: [Some message] is the [error] field of the response, which
      then carries no count; [None] a count that is answered. *)
Class Externals : Type := {
  JSON_parse : jsval -> option jsval;
  supabase_error : tables -> request -> option string;
  supabase_count_error : tables -> string -> option string
}.

(** ** Row mappings: the object literals handed to the Supabase client *)

Section Payloads.

Context `{Externals}.

Local Open Scope result_scope.

(** [v ? JSON.parse(v) : null] *)
Definition parse_or_null (v : jsval) : result jsval :=
  if truthy v then
    match JSON_parse v with
    | Some j => Ok j
    | None => Raise (SyntaxError v)
    end
  else Ok JNull.

(** [migrateUsers], lines 186-194. *)
Definition usersPayload (user : row) : result literal :=
  Ok [ ("auth_uuid", prop user "auth_uuid");
       ("email", prop user "email");
       ("name", prop user "name");
       ("avatar_url", prop user "avatar_url");
       ("is_organiser", JBool (strict_eq_num (prop user "is_organiser") 1));
       ("course", prop user "course");
       ("created_at", prop user "created_at") ].

(** [migrateEvents], lines 214-244. *)
Definition eventsPayload (event : row) : result literal :=
  let? department_access := parse_or_null (prop event "department_access") in
  let? rules := parse_or_null (prop event "rules") in
  let? schedule := parse_or_null (prop event "schedule") in
  let? prizes := parse_or_null (prop event "prizes") in
  Ok [ ("event_id", prop event "event_id");
       ("title", prop event "title");
       ("description", prop event "description");
       ("event_date", prop event "event_date");
       ("event_time", prop event "event_time");
       ("end_date", prop event "end_date");
       ("venue", prop event "venue");
       ("category", prop event "category");
       ("department_access", department_access);
       ("claims_applicable", JBool (strict_eq_num (prop event "claims_applicable") 1));
       ("registration_fee", prop event "registration_fee");
       ("participants_per_team", prop event "participants_per_team");
       ("max_participants", prop event "max_participants");
       ("event_image_url", prop event "event_image_url");
       ("banner_url", prop event "banner_url");
       ("pdf_url", prop event "pdf_url");
       ("rules", rules);
       ("schedule", schedule);
       ("prizes", prizes);
       ("organizer_email", prop event "organizer_email");
       ("organizer_phone", prop event "organizer_phone");
       ("whatsapp_invite_link", prop event "whatsapp_invite_link");
       ("organizing_dept", prop event "organizing_dept");
       ("fest", prop event "fest");
       ("created_by", prop event "created_by");
       ("created_at", prop event "created_at");
       ("updated_at", prop event "updated_at");
       ("registration_deadline", prop event "registration_deadline");
       ("total_participants", js_or (prop event "total_participants") (JNum 0)) ].

(** [migrateFests], lines 264-279. *)
Definition festsPayload (fest : row) : result literal :=
  let? department_access := parse_or_null (prop fest "department_access") in
  let? event_heads := parse_or_null (prop fest "event_heads") in
  Ok [ ("fest_id", prop fest "fest_id");
       ("fest_title", prop fest "fest_title");
       ("description", prop fest "description");
       ("opening_date", prop fest "opening_date");
       ("closing_date", prop fest "closing_date");
       ("fest_image_url", prop fest "fest_image_url");
       ("organizing_dept", prop fest "organizing_dept");
       ("department_access", department_access);
       ("category", prop fest "category");
       ("contact_email", prop fest "contact_email");
       ("contact_phone", prop fest "contact_phone");
       ("event_heads", event_heads);
       ("created_by", prop fest "created_by");
       ("created_at", prop fest "created_at") ].

(** [migrateRegistrations], lines 299-315. *)
Definition registrationsPayload (reg : row) : result literal :=
  let? teammates := parse_or_null (prop reg "teammates") in
  let? qr_code_data := parse_or_null (prop reg "qr_code_data") in
  Ok [ ("registration_id", prop reg "registration_id");
       ("event_id", prop reg "event_id");
       ("user_email", prop reg "user_email");
       ("registration_type", prop reg "registration_type");
       ("individual_name", prop reg "individual_name");
       ("individual_email", prop reg "individual_email");
       ("individual_register_number", prop reg "individual_register_number");
       ("team_name", prop reg "team_name");
       ("team_leader_name", prop reg "team_leader_name");
       ("team_leader_email", prop reg "team_leader_email");
       ("team_leader_register_number", prop reg "team_leader_register_number");
       ("teammates", teammates);
       ("created_at", prop reg "created_at");
       ("qr_code_data", qr_code_data);
       ("qr_code_generated_at", prop reg "qr_code_generated_at") ].

(** [migrateAttendance], lines 335-341. *)
Definition attendancePayload (att : row) : result literal :=
  Ok [ ("registration_id", prop att "registration_id");
       ("event_id", prop att "event_id");
       ("status", prop att "status");
       ("marked_at", prop att "marked_at");
       ("marked_by", prop att "marked_by") ].

(** [migrateQRScanLogs], lines 361-368. *)
Definition qrScanLogsPayload (log : row) : result literal :=
  let? scanner_info := parse_or_null (prop log "scanner_info") in
  Ok [ ("registration_id", prop log "registration_id");
       ("event_id", prop log "event_id");
       ("scanned_by", prop log "scanned_by");
       ("scan_timestamp", prop log "scan_timestamp");
       ("scan_result", prop log "scan_result");
       ("scanner_info", scanner_info) ].

End Payloads.

(** ** The destination store *)

(** The client serialises the body with [JSON.stringify], which leaves out
    properties whose value is [undefined]; the remaining properties are the
    columns the write supplies. *)
Definition is_undefined (v : jsval) : bool :=
  match v with
  | JUndefined => true
  | _ => false
  end.

Definition supplied (body : literal) : literal :=
  List.filter (fun kv => negb (is_undefined (snd kv))) body.

Definition stored (body : literal) : row := list_to_map (supplied body).

(** Modelled from the spec: the destination is a Supabase project, outside
    the repository.  The model keeps, per table, the rows in insertion
    order, and follows the specification's sentence on upserts ("if a
    destination row with the same natural-key value exists, overwrite its
    other fields; otherwise insert"), which is PostgreSQL's
    [INSERT ... ON CONFLICT (k) DO UPDATE]: the fields overwritten are those
    the write supplies.  Columns filled by the server (the [id] default)
    are left out.  Whether a write is accepted at all is not decided here
    but by [supabase_error]. *)

(** SQL [NULL] in column [k]: the column is absent or holds [null]. *)
Definition key_of (k : string) (r : row) : option jsval :=
  match r !! k with
  | Some JNull | None => None
  | Some v => Some v
  end.

(** [ON CONFLICT (k)]: an existing row conflicts with the new one when both
    hold the same non-null value in column [k]. *)
Definition conflicts (k : string) (new old : row) : bool :=
  match key_of k new, key_of k old with
  | Some a, Some b => jsval_eqb a b
  | _, _ => false
  end.

(** [INSERT ... ON CONFLICT (k) DO UPDATE SET c = EXCLUDED.c] for every
    supplied column [c]: the conflicting row keeps the columns the write
    does not supply and takes the others from it; without a conflicting row
    the new row is appended. *)
Fixpoint upsert_rows (k : string) (new : row) (rows : list row) : list row :=
  match rows with
  | [] => [new]
  | old :: rest =>
      if conflicts k new old then (new ∪ old) :: rest
      else old :: upsert_rows k new rest
  end.

Definition table_rows (d : tables) (t : string) : list row :=
  default [] (d !! t).

Definition apply_write (rq : request) (d : tables) : tables :=
  let rows := table_rows d (rq_table rq) in
  let rows' :=
    match rq_op rq with
    | Upsert k => upsert_rows k (stored (rq_body rq)) rows
    | Insert => (rows ++ [stored (rq_body rq)])%list
    end in
  <[rq_table rq := rows']> d.

(** ** The world the script runs in *)

(** A line on the console.  [Rule] is a line of box-drawing characters;
    fixed messages are kept as text, without their pictographs; a per-row
    line keeps the interpolated label and, for a failure, [error.message];
    a count line keeps the interpolated [count], [None] for [null]. *)
Inductive line : Type :=
| Rule
| Text (s : string)
| RowOk (label : jsval)
| RowError (label : jsval) (message : string)
| MigrationFailed (e : exn)
| RowCount (what : string) (count : option nat).

Inductive event : Type :=
| ConsoleLog (l : line)
| ConsoleError (l : line)
| SrcOpen (path : string)            (* [new Database(path)] *)
| SrcQuery (sql : string)            (* [db.prepare(sql).all()] *)
| SrcClose                           (* [db.close()] *)
| DestWrite (rq : request) (error : option string)
| DestCount (table : string)
| FileWrite (path : string)          (* [fs.writeFileSync(path, ...)] *)
| Prompt (reply : string).           (* [rl.question(...)] resolved *)

Record world : Type := World {
  source : tables;                   (* the SQLite file *)
  dest : tables;                     (* the Supabase project *)
  service_key : option string;       (* process.env.SUPABASE_SERVICE_ROLE_KEY *)
  answer : string;                   (* the line the operator types *)
  trace : list event                 (* what has happened so far *)
}.

Definition emit (e : event) (w : world) : world :=
  World (source w) (dest w) (service_key w) (answer w) (trace w ++ [e])%list.

Definition set_dest (d : tables) (w : world) : world :=
  World (source w) d (service_key w) (answer w) (trace w).

(** ** Computations: state, exceptions and [process.exit] *)

Inductive outcome (A : Type) : Type :=
| Done (a : A)
| Throw (e : exn)
| Exit (code : Z).
Arguments Done {A} a.
Arguments Throw {A} e.
Arguments Exit {A} code.

Definition M (A : Type) : Type := world -> outcome A * world.

Definition ret {A} (a : A) : M A := fun w => (Done a, w).

Definition bind {A B} (c : M A) (k : A -> M B) : M B :=
  fun w =>
    match c w with
    | (Done a, w') => k a w'
    | (Throw e, w') => (Throw e, w')
    | (Exit n, w') => (Exit n, w')
    end.

Declare Scope script_scope.
Delimit Scope script_scope with script.
Notation "'let!' x ':=' c 'in' k" := (bind c (fun x => k))
  (at level 10, x name, c at level 100, k at level 200) : script_scope.
Notation "c ';;' k" := (bind c (fun _ => k))
  (at level 100, k at level 200, right associativity) : script_scope.

(** A pure computation that may throw, run inside a script. *)
Definition lift {A} (r : result A) : M A :=
  fun w =>
    match r with
    | Ok a => (Done a, w)
    | Raise e => (Throw e, w)
    end.

(** [try { body } catch (error) { handler }]; [process.exit] is not an
    exception and passes through. *)
Definition try_catch (body : M unit) (handler : exn -> M unit) : M unit :=
  fun w =>
    match body w with
    | (Throw e, w') => handler e w'
    | other => other
    end.

Definition console_log (l : line) : M unit :=
  fun w => (Done tt, emit (ConsoleLog l) w).

Definition console_error (l : line) : M unit :=
  fun w => (Done tt, emit (ConsoleError l) w).

Definition process_exit {A} (code : Z) : M A :=
  fun w => (Exit code, w).

Definition db_open (path : string) : M unit :=
  fun w => (Done tt, emit (SrcOpen path) w).

Definition db_close : M unit :=
  fun w => (Done tt, emit SrcClose w).

(** The SQL the model understands: [SELECT * FROM t], giving [t]. *)
Definition select_all_table (sql : string) : option string :=
  if String.prefix "SELECT * FROM " sql
  then Some (String.substring 14 (String.length sql - 14) sql)
  else None.

(** [db.prepare(sql).all()]: every row of the table, or a thrown error when
    the statement cannot be prepared (no such table). *)
Definition db_all (sql : string) : M (list row) :=
  fun w =>
    let w' := emit (SrcQuery sql) w in
    match select_all_table sql ≫= (fun t => source w !! t) with
    | Some rows => (Done rows, w')
    | None => (Throw (SqliteError sql), w')
    end.

Definition fs_writeFileSync (path : string) : M unit :=
  fun w => (Done tt, emit (FileWrite path) w).

Definition rl_question : M string :=
  fun w => (Done (answer w), emit (Prompt (answer w)) w).

(** The [count] field of the response to a count of table [t]: the number
    of rows the table holds, or [null] when the backend reports an error. *)
Definition count_answer `{Externals} (d : tables) (t : string) : option nat :=
  match supabase_count_error d t with
  | Some _ => None
  | None => Some (length (table_rows d t))
  end.

(** [supabase.from(t).select('*', { count: 'exact', head: true })], of
    which the script takes the [count] field only: the [error] field is not
    looked at. *)
Definition supabase_count `{Externals} (t : string) : M (option nat) :=
  fun w => (Done (count_answer (dest w) t), emit (DestCount t) w).

Fixpoint for_of {A} (xs : list A) (body : A -> M unit) : M unit :=
  match xs with
  | [] => ret tt
  | x :: rest => bind (body x) (fun _ => for_of rest body)
  end.

(** ** The script *)

Section Script.

Context `{Externals}.

Local Open Scope script_scope.

(** [await supabase.from(t).upsert(...)] / [.insert(...)]: the backend
    either reports an error and stores nothing, or applies the write.  The
    result is the [error] field of the response. *)
Definition supabase_write (t : string) (op : write_op) (body : literal)
  : M (option string) :=
  fun w =>
    let rq := Request t op body in
    match supabase_error (dest w) rq with
    | Some message => (Done (Some message), emit (DestWrite rq (Some message)) w)
    | None => (Done None, emit (DestWrite rq None) (set_dest (apply_write rq (dest w)) w))
    end.

Definition migrateUsers : M unit :=
  console_log (Text "Migrating users...") ;;
  let! users := db_all "SELECT * FROM users" in
  if (length users =? 0)%nat then
    console_log (Text "No users to migrate")
  else
    for_of users (fun user =>
      let! body := lift (usersPayload user) in
      let! error := supabase_write "users" (Upsert "email") body in
      match error with
      | Some message => console_error (RowError (prop user "email") message)
      | None => console_log (RowOk (prop user "email"))
      end).

Definition migrateEvents : M unit :=
  console_log (Text "Migrating events...") ;;
  let! events := db_all "SELECT * FROM events" in
  if (length events =? 0)%nat then
    console_log (Text "No events to migrate")
  else
    for_of events (fun event =>
      let! body := lift (eventsPayload event) in
      let! error := supabase_write "events" (Upsert "event_id") body in
      match error with
      | Some message => console_error (RowError (prop event "title") message)
      | None => console_log (RowOk (prop event "title"))
      end).

Definition migrateFests : M unit :=
  console_log (Text "Migrating fests...") ;;
  let! fests := db_all "SELECT * FROM fests" in
  if (length fests =? 0)%nat then
    console_log (Text "No fests to migrate")
  else
    for_of fests (fun fest =>
      let! body := lift (festsPayload fest) in
      let! error := supabase_write "fests" (Upsert "fest_id") body in
      match error with
      | Some message => console_error (RowError (prop fest "fest_title") message)
      | None => console_log (RowOk (prop fest "fest_title"))
      end).

Definition migrateRegistrations : M unit :=
  console_log (Text "Migrating registrations...") ;;
  let! registrations := db_all "SELECT * FROM registrations" in
  if (length registrations =? 0)%nat then
    console_log (Text "No registrations to migrate")
  else
    for_of registrations (fun reg =>
      let! body := lift (registrationsPayload reg) in
      let! error := supabase_write "registrations" (Upsert "registration_id") body in
      match error with
      | Some message => console_error (RowError (prop reg "registration_id") message)
      | None => console_log (RowOk (prop reg "registration_id"))
      end).

Definition migrateAttendance : M unit :=
  console_log (Text "Migrating attendance status...") ;;
  let! attendance := db_all "SELECT * FROM attendance_status" in
  if (length attendance =? 0)%nat then
    console_log (Text "No attendance records to migrate")
  else
    for_of attendance (fun att =>
      let! body := lift (attendancePayload att) in
      let! error := supabase_write "attendance_status" Insert body in
      match error with
      | Some message => console_error (RowError (prop att "registration_id") message)
      | None => console_log (RowOk (prop att "registration_id"))
      end).

Definition migrateQRScanLogs : M unit :=
  console_log (Text "Migrating QR scan logs...") ;;
  let! logs := db_all "SELECT * FROM qr_scan_logs" in
  if (length logs =? 0)%nat then
    console_log (Text "No QR scan logs to migrate")
  else
    for_of logs (fun log =>
      let! body := lift (qrScanLogsPayload log) in
      let! error := supabase_write "qr_scan_logs" Insert body in
      match error with
      | Some message => console_error (RowError (prop log "scan_result") message)
      | None => console_log (RowOk (prop log "scan_result"))
      end).

(** [answer.toLowerCase() !== 'yes' && answer.toLowerCase() !== 'y'] *)
Definition declined (reply : string) : bool :=
  negb (String.eqb (toLowerCase reply) "yes") &&
  negb (String.eqb (toLowerCase reply) "y").

(** Lines 428-449: the body of the [try] block. *)
Definition migrateAll : M unit :=
  migrateUsers ;;
  migrateEvents ;;
  migrateFests ;;
  migrateRegistrations ;;
  migrateAttendance ;;
  migrateQRScanLogs ;;
  console_log Rule ;;
  console_log (Text "Migration completed successfully!") ;;
  console_log Rule ;;
  console_log (Text "Verifying migration...") ;;
  let! userCount := supabase_count "users" in
  let! eventCount := supabase_count "events" in
  let! regCount := supabase_count "registrations" in
  console_log (RowCount "Users in Supabase" userCount) ;;
  console_log (RowCount "Events in Supabase" eventCount) ;;
  console_log (RowCount "Registrations in Supabase" regCount).

(** Lines 379-407: the instructions printed before the prompt, and the
    schema file. *)
Definition instructions : M unit :=
  console_log Rule ;;
  console_log (Text "SQLite to Supabase Migration Tool") ;;
  console_log Rule ;;
  console_log (Text "Supabase URL: supabaseUrl") ;;
  console_log (Text "SQLite DB: ./data/socio-copy.db") ;;
  console_log Rule ;;
  console_log (Text "STEP 1: Create tables in Supabase") ;;
  console_log Rule ;;
  console_log (Text "1. Go to: https://supabase.com/dashboard") ;;
  console_log (Text "2. Open your project") ;;
  console_log (Text "3. Click on SQL Editor in the left sidebar") ;;
  console_log (Text "4. Click New Query") ;;
  console_log (Text "5. Copy and paste the SQL below, then click Run") ;;
  console_log Rule ;;
  console_log (Text "createTablesSQL") ;;
  console_log Rule ;;
  console_log (Text "The SQL has also been saved to: supabase-schema.sql") ;;
  fs_writeFileSync "./supabase-schema.sql" ;;
  console_log Rule ;;
  console_log (Text "STEP 2: Run migration after creating tables") ;;
  console_log Rule.

(** Lines 428-452: the [try] statement with its [catch]. *)
Definition tryMigrateAll : M unit :=
  try_catch migrateAll
    (fun error => console_error (MigrationFailed error)).

Definition main : M unit :=
  instructions ;;
  let! reply := rl_question in
  (if declined reply then
     console_log (Text "Please create the tables first, then run this script again.") ;;
     console_log (Text "You can also run: node migrate-to-supabase.js --migrate-only") ;;
     process_exit 0
   else ret tt) ;;
  console_log (Text "Starting data migration...") ;;
  tryMigrateAll ;;
  db_close.

(** [!supabaseServiceKey] *)
Definition key_missing (k : option string) : bool :=
  match k with
  | None => true
  | Some s => String.eqb s EmptyString
  end.

(** The module top level, lines 5-19 and 457. *)
Definition script : M unit :=
  fun w =>
    (if key_missing (service_key w) then
       console_error (Text "SUPABASE_SERVICE_ROLE_KEY is required in .env file") ;;
       process_exit 1
     else
       db_open "./data/socio-copy.db" ;;
       main) w.

End Script.

(** ** The six migrations, uniformly *)

Inductive table : Type :=
| Users | Events | Fests | Registrations | Attendance | QRScanLogs.

(** What distinguishes one migration function from another. *)
Record shape : Type := Shape {
  sh_start : string;                      (* first console line *)
  sh_sql : string;                        (* statement prepared on the source *)
  sh_none : string;                       (* console line for an empty table *)
  sh_payload : row -> result literal;     (* object literal built per row *)
  sh_table : string;                      (* destination table *)
  sh_op : write_op;                       (* upsert (with its key) or insert *)
  sh_label : string                       (* column interpolated in the row line *)
}.

Section Shapes.

Context `{Externals}.

Local Open Scope script_scope.

(** The body shared by the six functions. *)
Definition row_step (s : shape) (r : row) : M unit :=
  let! body := lift (sh_payload s r) in
  let! error := supabase_write (sh_table s) (sh_op s) body in
  match error with
  | Some message => console_error (RowError (prop r (sh_label s)) message)
  | None => console_log (RowOk (prop r (sh_label s)))
  end.

Definition migrate (s : shape) : M unit :=
  console_log (Text (sh_start s)) ;;
  let! rows := db_all (sh_sql s) in
  if (length rows =? 0)%nat then
    console_log (Text (sh_none s))
  else
    for_of rows (row_step s).

Definition shape_of (t : table) : shape :=
  match t with
  | Users =>
      Shape "Migrating users..." "SELECT * FROM users" "No users to migrate"
            usersPayload "users" (Upsert "email") "email"
  | Events =>
      Shape "Migrating events..." "SELECT * FROM events" "No events to migrate"
            eventsPayload "events" (Upsert "event_id") "title"
  | Fests =>
      Shape "Migrating fests..." "SELECT * FROM fests" "No fests to migrate"
            festsPayload "fests" (Upsert "fest_id") "fest_title"
  | Registrations =>
      Shape "Migrating registrations..." "SELECT * FROM registrations"
            "No registrations to migrate"
            registrationsPayload "registrations" (Upsert "registration_id")
            "registration_id"
  | Attendance =>
      Shape "Migrating attendance status..." "SELECT * FROM attendance_status"
            "No attendance records to migrate"
            attendancePayload "attendance_status" Insert "registration_id"
  | QRScanLogs =>
      Shape "Migrating QR scan logs..." "SELECT * FROM qr_scan_logs"
            "No QR scan logs to migrate"
            qrScanLogsPayload "qr_scan_logs" Insert "scan_result"
  end.

Definition migration (t : table) : M unit :=
  match t with
  | Users => migrateUsers
  | Events => migrateEvents
  | Fests => migrateFests
  | Registrations => migrateRegistrations
  | Attendance => migrateAttendance
  | QRScanLogs => migrateQRScanLogs
  end.

Definition payload (t : table) : row -> result literal := sh_payload (shape_of t).

End Shapes.

(** The order in which [main] runs the migrations. *)
Definition run_order : list table :=
  [Users; Events; Fests; Registrations; Attendance; QRScanLogs].


(** The columns whose source text is JSON. *)
Definition json_columns (t : table) : list string :=
  match t with
  | Users => []
  | Events => ["department_access"; "rules"; "schedule"; "prizes"]
  | Fests => ["department_access"; "event_heads"]
  | Registrations => ["teammates"; "qr_code_data"]
  | Attendance => []
  | QRScanLogs => ["scanner_info"]
  end.

(** The columns the source stores as a 0/1 integer. *)
Definition boolean_columns (t : table) : list string :=
  match t with
  | Users => ["is_organiser"]
  | Events => ["claims_applicable"]
  | _ => []
  end.

(** The columns each object literal reads, in the order it is written. *)
Definition columns (t : table) : list string :=
  match t with
  | Users =>
      ["auth_uuid"; "email"; "name"; "avatar_url"; "is_organiser"; "course";
       "created_at"]
  | Events =>
      ["event_id"; "title"; "description"; "event_date"; "event_time";
       "end_date"; "venue"; "category"; "department_access";
       "claims_applicable"; "registration_fee"; "participants_per_team";
       "max_participants"; "event_image_url"; "banner_url"; "pdf_url"; "rules";
       "schedule"; "prizes"; "organizer_email"; "organizer_phone";
       "whatsapp_invite_link"; "organizing_dept"; "fest"; "created_by";
       "created_at"; "updated_at"; "registration_deadline";
       "total_participants"]
  | Fests =>
      ["fest_id"; "fest_title"; "description"; "opening_date"; "closing_date";
       "fest_image_url"; "organizing_dept"; "department_access"; "category";
       "contact_email"; "contact_phone"; "event_heads"; "created_by";
       "created_at"]
  | Registrations =>
      ["registration_id"; "event_id"; "user_email"; "registration_type";
       "individual_name"; "individual_email"; "individual_register_number";
       "team_name"; "team_leader_name"; "team_leader_email";
       "team_leader_register_number"; "teammates"; "created_at";
       "qr_code_data"; "qr_code_generated_at"]
  | Attendance =>
      ["registration_id"; "event_id"; "status"; "marked_at"; "marked_by"]
  | QRScanLogs =>
      ["registration_id"; "event_id"; "scanned_by"; "scan_timestamp";
       "scan_result"; "scanner_info"]
  end.

(** The columns [createTablesSQL] (lines 22-174) declares for the
    destination table of each migration. *)
Definition createTablesSQL_columns (t : table) : list string :=
  match t with
  | Users =>
      ["id"; "auth_uuid"; "email"; "name"; "avatar_url"; "is_organiser";
       "course"; "register_number"; "created_at"]
  | Events =>
      ["id"; "event_id"; "title"; "description"; "event_date"; "event_time";
       "end_date"; "venue"; "category"; "department_access";
       "claims_applicable"; "registration_fee"; "participants_per_team";
       "max_participants"; "event_image_url"; "banner_url"; "pdf_url"; "rules";
       "schedule"; "prizes"; "organizer_email"; "organizer_phone";
       "whatsapp_invite_link"; "organizing_dept"; "fest"; "created_by";
       "created_at"; "updated_at"; "registration_deadline";
       "total_participants"]
  | Fests =>
      ["id"; "fest_id"; "fest_title"; "description"; "opening_date";
       "closing_date"; "fest_image_url"; "organizing_dept";
       "department_access"; "category"; "contact_email"; "contact_phone";
       "event_heads"; "created_by"; "created_at"]
  | Registrations =>
      ["id"; "registration_id"; "event_id"; "user_email"; "registration_type";
       "individual_name"; "individual_email"; "individual_register_number";
       "team_name"; "team_leader_name"; "team_leader_email";
       "team_leader_register_number"; "teammates"; "created_at";
       "qr_code_data"; "qr_code_generated_at"]
  | Attendance =>
      ["id"; "registration_id"; "event_id"; "status"; "marked_at"; "marked_by"]
  | QRScanLogs =>
      ["id"; "registration_id"; "event_id"; "scanned_by"; "scan_timestamp";
       "scan_result"; "scanner_info"]
  end.

(** The value of property [c] of an object literal. *)
Fixpoint field (c : string) (body : literal) : option jsval :=
  match body with
  | [] => None
  | (k, v) :: rest => if String.eqb k c then Some v else field c rest
  end.

(** ** A reference [JSON.parse] for concrete runs *)

(** A recursive-descent reader for JSON texts whose numbers are integers
    (no fraction, no exponent) and whose strings use the one-letter escapes
    only.  On those texts it returns what [JSON.parse] returns, and every
    text that is not JSON is refused, as [JSON.parse] throws.  JSON texts
    outside this fragment are refused too; none is used below.  The general
    results do not depend on this reader: they hold for any [JSON_parse]. *)
Module Json.

Definition dquote : ascii := ascii_of_nat 34.
Definition backslash : ascii := ascii_of_nat 92.

Definition is_ws (c : ascii) : bool :=
  let n := nat_of_ascii c in
  (n =? 32)%nat || (n =? 9)%nat || (n =? 10)%nat || (n =? 13)%nat.

Fixpoint skip_ws (s : string) : string :=
  match s with
  | String c rest => if is_ws c then skip_ws rest else s
  | EmptyString => s
  end.

Definition digit_of (c : ascii) : option Z :=
  let n := nat_of_ascii c in
  if (48 <=? n)%nat && (n <=? 57)%nat then Some (Z.of_nat (n - 48)) else None.

Fixpoint digits (s : string) (acc : Z) : Z * string :=
  match s with
  | String c rest =>
      match digit_of c with
      | Some d => digits rest (10 * acc + d)%Z
      | None => (acc, s)
      end
  | EmptyString => (acc, s)
  end.

(** A fraction or an exponent would follow here. *)
Definition integer_ends (s : string) : bool :=
  match s with
  | String c _ =>
      negb (Ascii.eqb c "."%char || Ascii.eqb c "e"%char || Ascii.eqb c "E"%char)
  | EmptyString => true
  end.

Definition unsigned (s : string) : option (Z * string) :=
  match s with
  | String c rest =>
      match digit_of c with
      | Some d =>
          let '(n, r) := if (d =? 0)%Z then (0%Z, rest) else digits rest d in
          if integer_ends r then Some (n, r) else None
      | None => None
      end
  | EmptyString => None
  end.

Definition number (s : string) : option (Z * string) :=
  match s with
  | String c rest =>
      if Ascii.eqb c "-"%char then
        match unsigned rest with
        | Some (n, r) => Some ((- n)%Z, r)
        | None => None
        end
      else unsigned s
  | EmptyString => None
  end.

Definition unescape (c : ascii) : option ascii :=
  if Ascii.eqb c dquote then Some dquote
  else if Ascii.eqb c backslash then Some backslash
  else if Ascii.eqb c "/"%char then Some "/"%char
  else if Ascii.eqb c "b"%char then Some (ascii_of_nat 8)
  else if Ascii.eqb c "f"%char then Some (ascii_of_nat 12)
  else if Ascii.eqb c "n"%char then Some (ascii_of_nat 10)
  else if Ascii.eqb c "r"%char then Some (ascii_of_nat 13)
  else if Ascii.eqb c "t"%char then Some (ascii_of_nat 9)
  else None.

(** The characters of a string after its opening quote, up to the closing
    quote. *)
Fixpoint string_body (s : string) : option (string * string) :=
  match s with
  | EmptyString => None
  | String c rest =>
      if Ascii.eqb c dquote then Some (EmptyString, rest)
      else if Ascii.eqb c backslash then
        match rest with
        | String e rest' =>
            match unescape e, string_body rest' with
            | Some ch, Some (t, r) => Some (String ch t, r)
            | _, _ => None
            end
        | EmptyString => None
        end
      else if (nat_of_ascii c <? 32)%nat then None
      else
        match string_body rest with
        | Some (t, r) => Some (String c t, r)
        | None => None
        end
  end.

Definition keyword (k : string) (v : jsval) (s : string) : option (jsval * string) :=
  if String.prefix k s
  then Some (v, String.substring (String.length k) (String.length s - String.length k) s)
  else None.

(** A repeated member name keeps its place and takes the later value. *)
Fixpoint set_member (k : string) (v : jsval) (ps : list (string * jsval))
  : list (string * jsval) :=
  match ps with
  | [] => [(k, v)]
  | (k', v') :: rest =>
      if String.eqb k' k then (k', v) :: rest else (k', v') :: set_member k v rest
  end.

Definition object_of (members : list (string * jsval)) : jsval :=
  JObj (fold_left (fun acc kv => set_member (fst kv) (snd kv) acc) members []).

Fixpoint value (fuel : nat) (s : string) : option (jsval * string) :=
  match fuel with
  | O => None
  | S fuel' =>
      match skip_ws s with
      | EmptyString => None
      | String c rest =>
          if Ascii.eqb c "["%char then
            match skip_ws rest with
            | String c' r =>
                if Ascii.eqb c' "]"%char then Some (JArr [], r)
                else
                  match elements fuel' rest with
                  | Some (vs, r') => Some (JArr vs, r')
                  | None => None
                  end
            | EmptyString => None
            end
          else if Ascii.eqb c "{"%char then
            match skip_ws rest with
            | String c' r =>
                if Ascii.eqb c' "}"%char then Some (JObj [], r)
                else
                  match members fuel' rest with
                  | Some (ms, r') => Some (object_of ms, r')
                  | None => None
                  end
            | EmptyString => None
            end
          else if Ascii.eqb c dquote then
            match string_body rest with
            | Some (t, r) => Some (JStr t, r)
            | None => None
            end
          else if Ascii.eqb c "n"%char then keyword "null" JNull (String c rest)
          else if Ascii.eqb c "t"%char then keyword "true" (JBool true) (String c rest)
          else if Ascii.eqb c "f"%char then keyword "false" (JBool false) (String c rest)
          else
            match number (String c rest) with
            | Some (n, r) => Some (JNum n, r)
            | None => None
            end
      end
  end
with elements (fuel : nat) (s : string) : option (list jsval * string) :=
  match fuel with
  | O => None
  | S fuel' =>
      match value fuel' s with
      | Some (v, r) =>
          match skip_ws r with
          | String c r' =>
              if Ascii.eqb c ","%char then
                match elements fuel' r' with
                | Some (vs, r'') => Some (v :: vs, r'')
                | None => None
                end
              else if Ascii.eqb c "]"%char then Some ([v], r')
              else None
          | EmptyString => None
          end
      | None => None
      end
  end
with members (fuel : nat) (s : string) : option (list (string * jsval) * string) :=
  match fuel with
  | O => None
  | S fuel' =>
      match skip_ws s with
      | String q r0 =>
          if Ascii.eqb q dquote then
            match string_body r0 with
            | Some (k, r1) =>
                match skip_ws r1 with
                | String c r2 =>
                    if Ascii.eqb c ":"%char then
                      match value fuel' r2 with
                      | Some (v, r3) =>
                          match skip_ws r3 with
                          | String c' r4 =>
                              if Ascii.eqb c' ","%char then
                                match members fuel' r4 with
                                | Some (ms, r5) => Some ((k, v) :: ms, r5)
                                | None => None
                                end
                              else if Ascii.eqb c' "}"%char then Some ([(k, v)], r4)
                              else None
                          | EmptyString => None
                          end
                      | None => None
                      end
                    else None
                | EmptyString => None
                end
            | None => None
            end
          else None
      | EmptyString => None
      end
  end.

(** A whole text: one value, then only white space. *)
Definition parse_text (s : string) : option jsval :=
  match value (2 * String.length s + 2) s with
  | Some (v, r) =>
      match skip_ws r with
      | EmptyString => Some v
      | String _ _ => None
      end
  | None => None
  end.

(** [JSON.parse(v)] converts [v] to a string first: a number, a boolean and
    [null] read back as themselves, [undefined] is not JSON.  SQLite yields
    no arrays or objects, which are left out. *)
Definition parse (v : jsval) : option jsval :=
  match v with
  | JStr s => parse_text s
  | JNum n => Some (JNum n)
  | JBool b => Some (JBool b)
  | JNull => Some JNull
  | JUndefined | JArr _ | JObj _ => None
  end.

(** JSON texts are written below with ['] for the double quote. *)
Fixpoint quoted (s : string) : string :=
  match s with
  | EmptyString => EmptyString
  | String c rest =>
      String (if Ascii.eqb c "'"%char then dquote else c) (quoted rest)
  end.

End Json.

(** A backend that accepts every write. *)
Definition accepting : Externals :=
  {| JSON_parse := Json.parse;
     supabase_error := fun _ _ => None;
     supabase_count_error := fun _ _ => None |}.

(** A backend that refuses the writes whose body holds [v] under [c], with
    message [msg], and accepts the others. *)
Definition refusing (c : string) (v : jsval) (msg : string) : Externals :=
  {| JSON_parse := Json.parse;
     supabase_error := fun _ rq =>
       if bool_decide (field c (rq_body rq) = Some v) then Some msg else None;
     supabase_count_error := fun _ _ => None |}.

(** A world with the given source, an empty destination, the service key set
    and the given reply waiting at the prompt. *)
Definition fresh (src : tables) (reply : string) : world :=
  World src ∅ (Some "service-role-key") reply [].

Definition obj (l : literal) : row := list_to_map l.

(** ** Bookkeeping for the proofs *)

(** The two events a row leaves behind once its payload is built: the write
    with the backend's answer, then the console line. *)
Definition row_events (s : shape) (r : row) (body : literal) (err : option string)
  : list event :=
  [ DestWrite (Request (sh_table s) (sh_op s) body) err;
    match err with
    | Some message => ConsoleError (RowError (prop r (sh_label s)) message)
    | None => ConsoleLog (RowOk (prop r (sh_label s)))
    end ].

(** The destination after a write that was answered with [err]. *)
Definition after_write (rq : request) (err : option string) (d : tables) : tables :=
  match err with
  | Some _ => d
  | None => apply_write rq d
  end.

(** The body a row is submitted with ([[]] for a row whose payload throws). *)
Definition body_of (s : shape) (r : row) : literal :=
  match sh_payload s r with
  | Ok body => body
  | Raise _ => []
  end.

Definition decodable (s : shape) (r : row) : bool :=
  match sh_payload s r with
  | Ok _ => true
  | Raise _ => false
  end.

Definition request_of (s : shape) (r : row) : request :=
  Request (sh_table s) (sh_op s) (body_of s r).

(** The events and the destination produced by rows answered with [errs]. *)
Fixpoint rows_events (s : shape) (rows : list row) (errs : list (option string))
  : list event :=
  match rows, errs with
  | r :: rows', err :: errs' =>
      (row_events s r (body_of s r) err ++ rows_events s rows' errs')%list
  | _, _ => []
  end.

Fixpoint rows_dest (s : shape) (rows : list row) (errs : list (option string))
  (d : tables) : tables :=
  match rows, errs with
  | r :: rows', err :: errs' =>
      rows_dest s rows' errs' (after_write (request_of s r) err d)
  | _, _ => d
  end.

Definition is_dest_write (e : event) : bool :=
  match e with
  | DestWrite _ _ => true
  | _ => false
  end.

Definition is_src_query (e : event) : bool :=
  match e with
  | SrcQuery _ => true
  | _ => false
  end.

Definition is_src_close (e : event) : bool :=
  match e with
  | SrcClose => true
  | _ => false
  end.

Definition is_src_open (e : event) : bool :=
  match e with
  | SrcOpen _ => true
  | _ => false
  end.

Definition is_row_error (e : event) : bool :=
  match e with
  | ConsoleError (RowError _ _) => true
  | _ => false
  end.

(** The destination table of a migration. *)
Definition table_name (t : table) : string :=
  match t with
  | Users => "users"
  | Events => "events"
  | Fests => "fests"
  | Registrations => "registrations"
  | Attendance => "attendance_status"
  | QRScanLogs => "qr_scan_logs"
  end.

(** The world after more events and with destination [d]; the source, the
    service key and the operator's reply are what they were. *)
Definition extend (w : world) (d : tables) (evs : list event) : world :=
  World (source w) d (service_key w) (answer w) (trace w ++ evs)%list.

(** The backend's answers to the rows of a table, submitted in order. *)
Fixpoint answers `{Externals} (s : shape) (rows : list row) (d : tables)
  : list (option string) :=
  match rows with
  | [] => []
  | r :: rest =>
      let err := supabase_error d (request_of s r) in
      err :: answers s rest (after_write (request_of s r) err d)
  end.

(** The console lines and the query that open a table's migration. *)
Definition opening (s : shape) : list event :=
  [ConsoleLog (Text (sh_start s)); SrcQuery (sh_sql s)].

(** A source event other than a whole-table [SELECT] (an open, a close or
    any other statement) fails this test. *)
Definition reads_whole_tables (e : event) : bool :=
  match e with
  | SrcQuery sql =>
      match select_all_table sql with
      | Some _ => true
      | None => false
      end
  | SrcOpen _ | SrcClose => false
  | _ => true
  end.

(** An event of the phase before the migration: console, file, prompt. *)
Definition touches_no_store (e : event) : bool :=
  match e with
  | ConsoleLog _ | ConsoleError _ | FileWrite _ | Prompt _ => true
  | _ => false
  end.

Definition failed (err : option string) : bool :=
  match err with
  | Some _ => true
  | None => false
  end.

(** One write per row, with the backend's answer. *)
Fixpoint rows_writes (s : shape) (rows : list row) (errs : list (option string))
  : list event :=
  match rows, errs with
  | r :: rows', err :: errs' =>
      DestWrite (request_of s r) err :: rows_writes s rows' errs'
  | _, _ => []
  end.

Definition no_exit {A} (o : outcome A) : Prop :=
  match o with
  | Exit _ => False
  | _ => True
  end.

(** A computation that only appends events passing [P] to the trace (and may
    change the destination), and does not leave through [process.exit]. *)
Definition stays (P : event -> bool) {A} (c : M A) : Prop :=
  forall w, exists o d evs,
    c w = (o, extend w d evs) /\ forallb P evs = true /\ no_exit o.

(** [P] lets through everything a table migration and the verification do. *)
Definition allows `{Externals} (P : event -> bool) : Prop :=
  (forall l, P (ConsoleLog l) = true) /\
  (forall l, P (ConsoleError l) = true) /\
  (forall t, P (SrcQuery (sh_sql (shape_of t))) = true) /\
  (forall rq err, P (DestWrite rq err) = true) /\
  (forall t, P (DestCount t) = true).

(** What [instructions] leaves on the trace. *)
Definition instruction_events : list event :=
  [ ConsoleLog Rule;
    ConsoleLog (Text "SQLite to Supabase Migration Tool");
    ConsoleLog Rule;
    ConsoleLog (Text "Supabase URL: supabaseUrl");
    ConsoleLog (Text "SQLite DB: ./data/socio-copy.db");
    ConsoleLog Rule;
    ConsoleLog (Text "STEP 1: Create tables in Supabase");
    ConsoleLog Rule;
    ConsoleLog (Text "1. Go to: https://supabase.com/dashboard");
    ConsoleLog (Text "2. Open your project");
    ConsoleLog (Text "3. Click on SQL Editor in the left sidebar");
    ConsoleLog (Text "4. Click New Query");
    ConsoleLog (Text "5. Copy and paste the SQL below, then click Run");
    ConsoleLog Rule;
    ConsoleLog (Text "createTablesSQL");
    ConsoleLog Rule;
    ConsoleLog (Text "The SQL has also been saved to: supabase-schema.sql");
    FileWrite "./supabase-schema.sql";
    ConsoleLog Rule;
    ConsoleLog (Text "STEP 2: Run migration after creating tables");
    ConsoleLog Rule ].

(** What a declined run prints after the prompt. *)
Definition declined_events : list event :=
  [ ConsoleLog (Text "Please create the tables first, then run this script again.");
    ConsoleLog (Text "You can also run: node migrate-to-supabase.js --migrate-only") ].

(** The events of a table's migration: its query on the source and the
    writes to its destination table. *)
Definition concerns `{Externals} (t : table) (e : event) : bool :=
  match e with
  | SrcQuery sql => String.eqb sql (sh_sql (shape_of t))
  | DestWrite rq _ => String.eqb (rq_table rq) (table_name t)
  | _ => false
  end.



(** What a row is stored as once its payload is built. *)
Definition stored_row (s : shape) (r : row) : row := stored (body_of s r).



(** The table after the upserts of [ps], in order. *)
Definition upsert_all (k : string) (ps : list row) (rows : list row) : list row :=
  fold_left (fun acc p => upsert_rows k p acc) ps rows.

(** The destination after the writes of [rows] have all been accepted. *)
Definition writes_all (s : shape) (rows : list row) (d : tables) : tables :=
  fold_left (fun acc r => apply_write (request_of s r) acc) rows d.

Definition write_op_eqb (a b : write_op) : bool :=
  match a, b with
  | Upsert x, Upsert y => String.eqb x y
  | Insert, Insert => true
  | _, _ => false
  end.


(** What the literals do with the value of a listed column: decode it,
    compare it with 1, default it to 0 (events.total_participants), or pass
    it on. *)
Definition convert `{Externals} (t : table) (c : string) (v : jsval) : result jsval :=
  if existsb (String.eqb c) (json_columns t) then parse_or_null v
  else if existsb (String.eqb c) (boolean_columns t) then
    Ok (JBool (strict_eq_num v 1))
  else
    match t with
    | Events =>
        if String.eqb c "total_participants" then Ok (js_or v (JNum 0)) else Ok v
    | _ => Ok v
    end.

(** ** Sample data for concrete runs *)

Definition alice : row :=
  obj [ ("id", JNum 7); ("email", JStr "alice@example.org"); ("name", JStr "Alice");
        ("is_organiser", JNum 1); ("course", JStr "BCA"); ("created_at", JStr "2024-01-05") ].

Definition bob : row :=
  obj [ ("id", JNum 8); ("email", JStr "bob@example.org"); ("name", JStr "Bob");
        ("is_organiser", JNum 0); ("course", JNull); ("created_at", JStr "2024-01-06") ].

Definition carol : row :=
  obj [ ("id", JNum 9); ("email", JStr "carol@example.org"); ("name", JStr "Carol");
        ("is_organiser", JNum 2); ("course", JStr "BBA"); ("created_at", JStr "2024-01-07") ].

(** A later row with Alice's email. *)
Definition alice_again : row :=
  obj [ ("id", JNum 10); ("email", JStr "alice@example.org"); ("name", JStr "Alice B.");
        ("is_organiser", JNum 0); ("course", JStr "MCA"); ("created_at", JStr "2024-02-01") ].

Definition opening_night : row :=
  obj [ ("event_id", JStr "E1"); ("title", JStr "Opening night");
        ("claims_applicable", JNum 1);
        ("rules", JStr (Json.quoted "{'a':1}")); ("schedule", JNull);
        ("prizes", JStr EmptyString); ("total_participants", JNull) ].

(** An event whose [rules] column is not JSON. *)
Definition broken_rules : row :=
  obj [ ("event_id", JStr "E2"); ("title", JStr "Hackathon");
        ("claims_applicable", JNum 0); ("rules", JStr "{oops") ].

Definition closing_night : row :=
  obj [ ("event_id", JStr "E3"); ("title", JStr "Closing night");
        ("claims_applicable", JNum 0); ("rules", JStr "[]") ].

Definition first_scan : row :=
  obj [ ("registration_id", JStr "R1"); ("event_id", JStr "E1");
        ("status", JStr "attended"); ("marked_at", JStr "2024-03-01");
        ("marked_by", JStr "alice@example.org") ].


(** Worlds for the concrete runs: the named source tables, an empty
    destination and the operator's reply. *)
Definition users_world : world :=
  fresh {[ "users" := [alice; bob; alice_again] ]} "yes".








Definition three_users_world : world :=
  fresh {[ "users" := [alice; bob; carol] ]} "yes".

Definition events_world : world :=
  fresh {[ "events" := [opening_night; broken_rules; closing_night] ]} "yes".

(** No [users] table, one event. *)
Definition no_users_world : world :=
  fresh {[ "events" := [opening_night] ]} "yes".

Definition empty_users_world : world :=
  fresh {[ "users" := [] ]} "yes".


Definition declined_world : world :=
  fresh {[ "users" := [alice; bob] ]} "No".

(** The service key is not set. *)
Definition keyless_world : world :=
  World {[ "users" := [alice; bob] ]} ∅ None "yes" [].

(** ** The inspection script *)

(** The second script of the repository (the lines after the migration
    script): it lists the tables of the SQLite file, prints the number of
    rows of each and then up to three rows of each. *)

(** ToString, as a template literal applies it.  A number is written in
    decimal (as JavaScript does below 10^21); an array is its elements
    joined by commas, with null and undefined elements left empty. *)
Fixpoint to_string (v : jsval) : string :=
  match v with
  | JUndefined => "undefined"
  | JNull => "null"
  | JBool true => "true"
  | JBool false => "false"
  | JNum n => pretty n
  | JStr s => s
  | JArr items =>
      (fix join (l : list jsval) : string :=
         match l with
         | [] => EmptyString
         | x :: rest =>
             let first :=
               match x with
               | JUndefined | JNull => EmptyString
               | _ => to_string x
               end in
             match rest with
             | [] => first
             | _ :: _ => first ++ "," ++ join rest
             end
         end) items
  | JObj _ => "[object Object]"
  end.

(** better-sqlite3, as the inspection script uses it.  [sqlite_all sql] is
    [db.prepare(sql).all()] and [sqlite_get sql] is [db.prepare(sql).get()];
    [None] stands for a thrown error, and [Some None] for the [undefined]
    that [get] returns when the statement yields no row. *)
Class Sqlite : Type := {
  sqlite_all : string -> option (list row);
  sqlite_get : string -> option (option row)
}.

Inductive inspect_exn : Type :=
| PrepareError (sql : string)     (* thrown by better-sqlite3 *)
| TypeError.                      (* a property read on [undefined] *)

Inductive inspect_line : Type :=
| Line (text : string)
| Json (rows : list row).         (* [JSON.stringify(rows, null, 2)] *)

Inductive inspect_event : Type :=
| Opened (path : string)
| Prepared (sql : string)
| Printed (l : inspect_line)
| Closed.

(** Computations of the inspection script: the events so far, and a value
    or a thrown exception. *)
Definition IM (A : Type) : Type :=
  list inspect_event -> (A + inspect_exn) * list inspect_event.

Definition inspect_ret {A} (a : A) : IM A := fun tr => (inl a, tr).

Definition inspect_bind {A B} (c : IM A) (k : A -> IM B) : IM B :=
  fun tr =>
    match c tr with
    | (inl a, tr') => k a tr'
    | (inr e, tr') => (inr e, tr')
    end.

Declare Scope inspect_scope.
Delimit Scope inspect_scope with inspect.
Notation "'let!' x ':=' c 'in' k" := (inspect_bind c (fun x => k))
  (at level 10, x name, c at level 100, k at level 200) : inspect_scope.
Notation "c ';;' k" := (inspect_bind c (fun _ => k))
  (at level 100, k at level 200, right associativity) : inspect_scope.

Definition inspect_throw {A} (e : inspect_exn) : IM A := fun tr => (inr e, tr).

Definition inspect_log (l : inspect_line) : IM unit :=
  fun tr => (inl tt, (tr ++ [Printed l])%list).

Definition inspect_open (path : string) : IM unit :=
  fun tr => (inl tt, (tr ++ [Opened path])%list).

Definition inspect_close : IM unit :=
  fun tr => (inl tt, (tr ++ [Closed])%list).

Fixpoint inspect_for_each {A} (xs : list A) (body : A -> IM unit) : IM unit :=
  match xs with
  | [] => inspect_ret tt
  | x :: rest => inspect_bind (body x) (fun _ => inspect_for_each rest body)
  end.

Definition newline : string := String (ascii_of_nat 10) EmptyString.

Section InspectionScript.

Context `{Sqlite}.

Local Open Scope inspect_scope.

Definition inspect_all (sql : string) : IM (list row) :=
  fun tr =>
    match sqlite_all sql with
    | Some rows => (inl rows, (tr ++ [Prepared sql])%list)
    | None => (inr (PrepareError sql), (tr ++ [Prepared sql])%list)
    end.

Definition inspect_get (sql : string) : IM (option row) :=
  fun tr =>
    match sqlite_get sql with
    | Some r => (inl r, (tr ++ [Prepared sql])%list)
    | None => (inr (PrepareError sql), (tr ++ [Prepared sql])%list)
    end.

Definition count_sql (t : row) : string :=
  "SELECT COUNT(*) as count FROM " ++ to_string (prop t "name").

Definition sample_sql (t : row) : string :=
  "SELECT * FROM " ++ to_string (prop t "name") ++ " LIMIT 3".

(** The callback of the first [forEach]. *)
Definition print_count (t : row) : IM unit :=
  let! count := inspect_get (count_sql t) in
  match count with
  | Some c =>
      inspect_log
        (Line ("  " ++ to_string (prop t "name") ++ ": " ++
               to_string (prop c "count") ++ " rows"))
  | None => inspect_throw TypeError          (* [count.count] on [undefined] *)
  end.

(** The callback of the second [forEach]. *)
Definition print_sample (t : row) : IM unit :=
  inspect_log (Line (newline ++ "--- " ++ to_string (prop t "name") ++ " ---")) ;;
  let! rows := inspect_all (sample_sql t) in
  inspect_log (Json rows).

Definition inspector : IM unit :=
  inspect_open "./data/socio-copy.db" ;;
  let! tables := inspect_all "SELECT name FROM sqlite_master WHERE type='table'" in
  inspect_log (Line "Tables in database:") ;;
  inspect_for_each tables print_count ;;
  inspect_for_each tables print_sample ;;
  inspect_close.

(** What the callbacks leave on the trace when their statement succeeds. *)
Definition count_events (t : row) : list inspect_event :=
  match sqlite_get (count_sql t) with
  | Some (Some c) =>
      [ Prepared (count_sql t);
        Printed (Line ("  " ++ to_string (prop t "name") ++ ": " ++
                       to_string (prop c "count") ++ " rows")) ]
  | _ => [Prepared (count_sql t)]
  end.

Definition sample_events (t : row) : list inspect_event :=
  match sqlite_all (sample_sql t) with
  | Some rows =>
      [ Printed (Line (newline ++ "--- " ++ to_string (prop t "name") ++ " ---"));
        Prepared (sample_sql t);
        Printed (Json rows) ]
  | None =>
      [ Printed (Line (newline ++ "--- " ++ to_string (prop t "name") ++ " ---"));
        Prepared (sample_sql t) ]
  end.

Definition counted (t : row) : bool :=
  match sqlite_get (count_sql t) with
  | Some (Some _) => true
  | _ => false
  end.

Definition sampled (t : row) : bool :=
  match sqlite_all (sample_sql t) with
  | Some _ => true
  | None => false
  end.

End InspectionScript.

Definition is_prepared (e : inspect_event) : bool :=
  match e with
  | Prepared _ => true
  | _ => false
  end.

Definition is_closed (e : inspect_event) : bool :=
  match e with
  | Closed => true
  | _ => false
  end.

Definition is_json (e : inspect_event) : bool :=
  match e with
  | Printed (Json _) => true
  | _ => false
  end.

(** The event is not a second opening of the file and, when it is a
    statement, the statement is a [SELECT]. *)
Definition selects_only (e : inspect_event) : bool :=
  match e with
  | Prepared sql => String.prefix "SELECT " sql
  | Opened _ => false
  | _ => true
  end.

(** ** Further bookkeeping *)

(** The replies the prompt takes for a yes. *)
Definition accepted_replies : list string :=
  [ "yes"; "yeS"; "yEs"; "yES"; "Yes"; "YeS"; "YEs"; "YES"; "y"; "Y" ].

(** The rows the source holds for a table (none when it has no such
    table). *)
Definition src_rows (src : tables) (t : table) : list row :=
  default [] (src !! table_name t).

(** The table exists in the source and the payload of each of its rows can
    be built. *)
Definition readable `{Externals} (src : tables) (t : table) : bool :=
  match src !! table_name t with
  | Some rows => forallb (decodable (shape_of t)) rows
  | None => false
  end.

(** What the migration of a readable table leaves on the trace and makes of
    the destination. *)
Definition migration_events `{Externals} (t : table) (rows : list row) (d : tables)
  : list event :=
  (opening (shape_of t) ++
   match rows with
   | [] => [ConsoleLog (Text (sh_none (shape_of t)))]
   | _ :: _ => rows_events (shape_of t) rows (answers (shape_of t) rows d)
   end)%list.

Definition dest_after `{Externals} (t : table) (rows : list row) (d : tables) : tables :=
  rows_dest (shape_of t) rows (answers (shape_of t) rows d) d.

(** The same for several readable tables, one after the other. *)
Fixpoint run_tables `{Externals} (src : tables) (ts : list table) (d : tables)
  : list event * tables :=
  match ts with
  | [] => ([], d)
  | t :: ts' =>
      let rest := run_tables src ts' (dest_after t (src_rows src t) d) in
      ((migration_events t (src_rows src t) d ++ fst rest)%list, snd rest)
  end.

(** Lines 436-448: what follows the six migrations in the [try] block, for
    a destination [d]. *)
Definition verification_events `{Externals} (d : tables) : list event :=
  [ ConsoleLog Rule;
    ConsoleLog (Text "Migration completed successfully!");
    ConsoleLog Rule;
    ConsoleLog (Text "Verifying migration...");
    DestCount "users";
    DestCount "events";
    DestCount "registrations";
    ConsoleLog (RowCount "Users in Supabase" (count_answer d "users"));
    ConsoleLog (RowCount "Events in Supabase" (count_answer d "events"));
    ConsoleLog (RowCount "Registrations in Supabase"
                  (count_answer d "registrations")) ].

(** A request that reads: a query on the source or a count at the
    destination. *)
Definition is_read (e : event) : bool :=
  match e with
  | SrcQuery _ | DestCount _ => true
  | _ => false
  end.

Definition is_count_line (e : event) : bool :=
  match e with
  | ConsoleLog (RowCount _ _) => true
  | _ => false
  end.

Definition is_console_error (e : event) : bool :=
  match e with
  | ConsoleError _ => true
  | _ => false
  end.

Definition is_file_write (e : event) : bool :=
  match e with
  | FileWrite _ => true
  | _ => false
  end.

(** A backend that cannot be reached: every write and every count is
    answered with an error. *)
Definition offline : Externals :=
  {| JSON_parse := Json.parse;
     supabase_error := fun _ _ => Some "fetch failed";
     supabase_count_error := fun _ _ => Some "fetch failed" |}.

(** A backend that accepts every write and answers every count but the one
    of table [t]. *)
Definition uncounted (t : string) : Externals :=
  {| JSON_parse := Json.parse;
     supabase_error := fun _ _ => None;
     supabase_count_error := fun _ u =>
       if String.eqb u t then Some "permission denied" else None |}.

(** The requests the script is written to make: the six [SELECT]s, a write
    to one of the six destination tables with the operation its function
    uses, a count of one of the three verified tables.  Console output, the
    schema file, the prompt and the handle's open and close pass. *)
Definition sanctioned `{Externals} (e : event) : bool :=
  match e with
  | SrcQuery sql =>
      existsb (fun t => String.eqb sql (sh_sql (shape_of t))) run_order
  | DestWrite rq _ =>
      existsb (fun t => String.eqb (rq_table rq) (table_name t) &&
                        write_op_eqb (rq_op rq) (sh_op (shape_of t))) run_order
  | DestCount n => existsb (String.eqb n) ["users"; "events"; "registrations"]
  | _ => true
  end.

(** The event reads, writes or counts the table named [n]. *)
Definition mentions (n : string) (e : event) : bool :=
  match e with
  | SrcQuery sql => String.eqb sql ("SELECT * FROM " ++ n)
  | DestWrite rq _ => String.eqb (rq_table rq) n
  | DestCount m => String.eqb m n
  | _ => false
  end.

Definition no_file_write (e : event) : bool := negb (is_file_write e).

(** A source with all six tables. *)
Definition full_world : world :=
  fresh {[ "users" := [alice; bob];
           "events" := [opening_night];
           "fests" := [];
           "registrations" := [];
           "attendance_status" := [first_scan];
           "qr_scan_logs" := [] ]} "yes".

(** The same, with an event that does not decode between two that do. *)
Definition broken_world : world :=
  fresh {[ "users" := [alice];
           "events" := [opening_night; broken_rules; closing_night];
           "fests" := [];
           "registrations" := [];
           "attendance_status" := [first_scan];
           "qr_scan_logs" := [] ]} "yes".

(** A file with two tables, as better-sqlite3 answers on it. *)
Definition two_tables : Sqlite :=
  {| sqlite_all := fun sql =>
       if String.eqb sql "SELECT name FROM sqlite_master WHERE type='table'" then
         Some [obj [("name", JStr "users")]; obj [("name", JStr "events")]]
       else if String.eqb sql "SELECT * FROM users LIMIT 3" then Some [alice; bob]
       else if String.eqb sql "SELECT * FROM events LIMIT 3" then Some [opening_night]
       else None;
     sqlite_get := fun sql =>
       if String.eqb sql "SELECT COUNT(*) as count FROM users" then
         Some (Some (obj [("count", JNum 2)]))
       else if String.eqb sql "SELECT COUNT(*) as count FROM events" then
         Some (Some (obj [("count", JNum 1)]))
       else None |}.

(** A file whose second table is named [order]: the statement built with
    the bare name is not valid SQL and cannot be prepared. *)
Definition keyword_table : Sqlite :=
  {| sqlite_all := fun sql =>
       if String.eqb sql "SELECT name FROM sqlite_master WHERE type='table'" then
         Some [obj [("name", JStr "users")]; obj [("name", JStr "order")];
               obj [("name", JStr "events")]]
       else if String.eqb sql "SELECT * FROM users LIMIT 3" then Some [alice; bob]
       else if String.eqb sql "SELECT * FROM events LIMIT 3" then Some [opening_night]
       else None;
     sqlite_get := fun sql =>
       if String.eqb sql "SELECT COUNT(*) as count FROM users" then
         Some (Some (obj [("count", JNum 2)]))
       else if String.eqb sql "SELECT COUNT(*) as count FROM events" then
         Some (Some (obj [("count", JNum 1)]))
       else None |}.

(** * Properties *)

(** ** The row mappings *)

Section PayloadFacts.

Context `{Externals}.



End PayloadFacts.

(** Opens a hypothesis [payload t r = Ok body]: every JSON column has been
    decoded, and [body] is the literal itself. *)
Ltac open_payload Hp :=
  unfold payload in Hp; cbn [shape_of sh_payload] in Hp;
  unfold usersPayload, eventsPayload, festsPayload, registrationsPayload,
    attendancePayload, qrScanLogsPayload in Hp;
  repeat match type of Hp with
    | context [parse_or_null ?v] =>
        let E := fresh "E" in
        destruct (parse_or_null v) eqn:E; cbn [result_bind] in Hp;
        [ | discriminate Hp ]
    end;
  injection Hp as Hp; subst.

Ltac in_cases Hin :=
  cbn in Hin;
  repeat match type of Hin with
    | _ \/ _ => destruct Hin as [Hin | Hin]
    | False => destruct Hin
    end;
  subst.

Section Mapping.

Context `{Externals}.



End Mapping.

(** ** Running a table's loop *)

(** Brings a world built from [emit], [set_dest] and [extend] to the form
    [World _ _ _ _ (trace w ++ events)]. *)
Ltac norm_world :=
  unfold console_error, console_log, emit, set_dest, extend, opening;
  cbn [source dest service_key answer trace];
  rewrite <- ?app_assoc; cbn [app].

Section Loop.

Context `{Externals}.

Lemma migration_shape (t : table) : migration t = migrate (shape_of t).
Proof. destruct t; reflexivity. Qed.

Lemma shape_table (t : table) : sh_table (shape_of t) = table_name t.
Proof. destruct t; reflexivity. Qed.

Lemma shape_sql (t : table) :
  select_all_table (sh_sql (shape_of t)) = Some (table_name t).
Proof. destruct t; reflexivity. Qed.

Lemma extend_extend (w : world) (d1 d2 : tables) (e1 e2 : list event) :
  extend (extend w d1 e1) d2 e2 = extend w d2 (e1 ++ e2).
Proof. unfold extend. simpl. rewrite <- app_assoc. reflexivity. Qed.

Lemma extend_nil (w : world) : extend w (dest w) [] = w.
Proof. destruct w. unfold extend. simpl. rewrite app_nil_r. reflexivity. Qed.

Lemma row_step_ok (s : shape) (r : row) (w : world) :
  decodable s r = true ->
  row_step s r w =
    (Done tt,
     extend w
       (after_write (request_of s r) (supabase_error (dest w) (request_of s r)) (dest w))
       (row_events s r (body_of s r) (supabase_error (dest w) (request_of s r)))).
Proof.
  unfold decodable, request_of, body_of, row_step, bind, lift, supabase_write.
  destruct (sh_payload s r) as [body|e]; [intros _|discriminate].
  destruct (supabase_error (dest w) _) as [message|];
    unfold row_events, after_write; norm_world; reflexivity.
Qed.

Lemma row_step_raise (s : shape) (r : row) (w : world) (e : exn) :
  sh_payload s r = Raise e -> row_step s r w = (Throw e, w).
Proof.
  intros Hp. unfold row_step, bind, lift. rewrite Hp. reflexivity.
Qed.

(** When every payload can be built, the loop visits every row. *)
Lemma for_of_decodable (s : shape) (rows : list row) (w : world) :
  forallb (decodable s) rows = true ->
  for_of rows (row_step s) w =
    (Done tt,
     extend w
       (rows_dest s rows (answers s rows (dest w)) (dest w))
       (rows_events s rows (answers s rows (dest w)))).
Proof.
  revert w. induction rows as [|r rows IH]; intros w Hall.
  - simpl. unfold ret. rewrite extend_nil. reflexivity.
  - simpl in Hall. apply andb_prop in Hall as [Hr Hall].
    cbn [for_of]. unfold bind at 1. rewrite (row_step_ok s r w Hr).
    rewrite (IH _ Hall). rewrite extend_extend. reflexivity.
Qed.

(** The first row whose payload throws ends the loop: the rows before it
    have been submitted, the rows after it are never reached. *)
Lemma for_of_raise (s : shape) (pre post : list row) (bad : row) (e : exn) (w : world) :
  forallb (decodable s) pre = true ->
  sh_payload s bad = Raise e ->
  for_of (pre ++ bad :: post) (row_step s) w =
    (Throw e,
     extend w
       (rows_dest s pre (answers s pre (dest w)) (dest w))
       (rows_events s pre (answers s pre (dest w)))).
Proof.
  revert w. induction pre as [|r pre IH]; intros w Hall Hbad.
  - cbn [app for_of]. unfold bind. rewrite (row_step_raise s bad w e Hbad).
    simpl. rewrite extend_nil. reflexivity.
  - simpl in Hall. apply andb_prop in Hall as [Hr Hall].
    cbn [app for_of]. unfold bind at 1. rewrite (row_step_ok s r w Hr).
    rewrite (IH _ Hall Hbad). rewrite extend_extend. reflexivity.
Qed.

Lemma migration_missing (t : table) (w : world) :
  source w !! table_name t = None ->
  migration t w =
    (Throw (SqliteError (sh_sql (shape_of t))),
     extend w (dest w) (opening (shape_of t))).
Proof.
  intros Hsrc. rewrite migration_shape.
  unfold migrate, bind, console_log, db_all. cbn [source emit].
  rewrite shape_sql. cbn [mbind option_bind]. rewrite Hsrc.
  norm_world. reflexivity.
Qed.

Lemma migration_empty (t : table) (w : world) :
  source w !! table_name t = Some [] ->
  migration t w =
    (Done tt,
     extend w (dest w)
       (opening (shape_of t) ++ [ConsoleLog (Text (sh_none (shape_of t)))])).
Proof.
  intros Hsrc. rewrite migration_shape.
  unfold migrate, bind, console_log, db_all. cbn [source emit].
  rewrite shape_sql. cbn [mbind option_bind]. rewrite Hsrc.
  cbn [length Nat.eqb]. norm_world. reflexivity.
Qed.

Lemma migration_rows (t : table) (w : world) (r : row) (rows : list row) :
  source w !! table_name t = Some (r :: rows) ->
  migration t w =
    for_of (r :: rows) (row_step (shape_of t))
      (extend w (dest w) (opening (shape_of t))).
Proof.
  intros Hsrc. rewrite migration_shape.
  unfold migrate, bind, console_log, db_all. cbn [source emit].
  rewrite shape_sql. cbn [mbind option_bind]. rewrite Hsrc.
  cbn [length Nat.eqb].
  norm_world.
  destruct (for_of (r :: rows) (row_step (shape_of t)) _) as [[a|e|n] w'];
    try destruct a; reflexivity.
Qed.

End Loop.

(** ** One table *)

Section OneTable.

Context `{Externals}.

Lemma answers_length (s : shape) (rows : list row) (d : tables) :
  length (answers s rows d) = length rows.
Proof.
  revert d. induction rows as [|r rows IH]; intros d; simpl; [|rewrite IH]; reflexivity.
Qed.

Lemma rows_events_writes (s : shape) (rows : list row) (errs : list (option string)) :
  List.filter is_dest_write (rows_events s rows errs) = rows_writes s rows errs.
Proof.
  revert errs. induction rows as [|r rows IH]; intros [|err errs]; try reflexivity.
  simpl. rewrite IH. destruct err; reflexivity.
Qed.

Lemma rows_events_errors (s : shape) (rows : list row) (errs : list (option string)) :
  length errs = length rows ->
  length (List.filter is_row_error (rows_events s rows errs)) =
  length (List.filter failed errs).
Proof.
  revert errs. induction rows as [|r rows IH]; intros [|err errs] Hlen;
    try reflexivity; try discriminate.
  injection Hlen as Hlen. simpl. destruct err; simpl; rewrite (IH _ Hlen); reflexivity.
Qed.

(** C5.  A table with no rows: the function logs its first line, reads the
    table, logs that there is nothing to migrate and returns; no write is
    sent and the destination is what it was. *)
Theorem empty_table_is_a_noop (t : table) (w : world) :
  source w !! table_name t = Some [] ->
  exists w',
    migration t w = (Done tt, w') /\
    trace w' =
      (trace w ++
       [ ConsoleLog (Text (sh_start (shape_of t)));
         SrcQuery (sh_sql (shape_of t));
         ConsoleLog (Text (sh_none (shape_of t))) ])%list /\
    List.filter is_dest_write (trace w') = List.filter is_dest_write (trace w) /\
    dest w' = dest w /\
    source w' = source w.
Proof.
  intros Hsrc. eexists. split; [apply migration_empty, Hsrc|].
  unfold extend, opening. cbn [trace dest source app].
  repeat split.
  rewrite List.filter_app. cbn. apply app_nil_r.
Qed.

Lemma migration_nonempty (t : table) (w : world) (rows : list row) :
  rows <> [] ->
  source w !! table_name t = Some rows ->
  migration t w =
    for_of rows (row_step (shape_of t)) (extend w (dest w) (opening (shape_of t))).
Proof.
  intros Hne Hsrc. destruct rows as [|r rows]; [contradiction|].
  apply migration_rows, Hsrc.
Qed.

(** C2, as the code has it.  When the payload of every row can be built,
    every row of the table is submitted once, in source order, whatever the
    backend answers to the others; a refused write changes nothing at the
    destination and is logged with the row's label column and the backend's
    message, an accepted one is applied and logged with the label.  With
    three rows of which the second is refused, the first and the third are
    written and one failure is logged.  A row whose payload cannot be built
    (a JSON column that does not decode) is not passed over: the exception
    leaves the function, the rows before it have been submitted, the rows
    after it are not. *)
Theorem refused_writes_are_logged_and_passed_over
  (t : table) (w : world) (rows : list row) :
  source w !! table_name t = Some rows ->
  (rows <> [] ->
   forallb (decodable (shape_of t)) rows = true ->
   exists w',
     migration t w = (Done tt, w') /\
     trace w' =
       (trace w ++ opening (shape_of t) ++
        rows_events (shape_of t) rows (answers (shape_of t) rows (dest w)))%list /\
     dest w' = rows_dest (shape_of t) rows (answers (shape_of t) rows (dest w)) (dest w) /\
     List.filter is_dest_write
       (rows_events (shape_of t) rows (answers (shape_of t) rows (dest w))) =
       rows_writes (shape_of t) rows (answers (shape_of t) rows (dest w)) /\
     length (List.filter is_row_error
       (rows_events (shape_of t) rows (answers (shape_of t) rows (dest w)))) =
       length (List.filter failed (answers (shape_of t) rows (dest w))) /\
     (forall r1 r2 r3 message,
        rows = [r1; r2; r3] ->
        answers (shape_of t) rows (dest w) = [None; Some message; None] ->
        dest w' =
          apply_write (request_of (shape_of t) r3)
            (apply_write (request_of (shape_of t) r1) (dest w)) /\
        List.filter is_row_error (rows_events (shape_of t) rows
                                    (answers (shape_of t) rows (dest w))) =
          [ConsoleError (RowError (prop r2 (sh_label (shape_of t))) message)])) /\
  (forall pre bad post e,
     rows = (pre ++ bad :: post)%list ->
     forallb (decodable (shape_of t)) pre = true ->
     sh_payload (shape_of t) bad = Raise e ->
     exists w',
       migration t w = (Throw e, w') /\
       trace w' =
         (trace w ++ opening (shape_of t) ++
          rows_events (shape_of t) pre (answers (shape_of t) pre (dest w)))%list /\
       dest w' = rows_dest (shape_of t) pre (answers (shape_of t) pre (dest w)) (dest w)).
Proof.
  intros Hsrc. split.
  - intros Hne Hall.
    rewrite (migration_nonempty t w rows Hne Hsrc).
    rewrite (for_of_decodable _ _ _ Hall).
    eexists. split; [reflexivity|].
    unfold extend. cbn [trace dest]. rewrite <- app_assoc.
    split; [reflexivity|]. split; [reflexivity|].
    split; [apply rows_events_writes|].
    split; [apply rows_events_errors, answers_length|].
    intros r1 r2 r3 message -> Hans. rewrite Hans.
    split; reflexivity.
  - intros pre bad post e Hrows Hpre Hbad.
    assert (Hne : rows <> []) by (rewrite Hrows; destruct pre; discriminate).
    rewrite (migration_nonempty t w rows Hne Hsrc), Hrows.
    rewrite (for_of_raise _ _ _ _ _ _ Hpre Hbad).
    eexists. split; [reflexivity|].
    unfold extend. cbn [trace dest]. rewrite <- app_assoc.
    split; reflexivity.
Qed.

End OneTable.

(** ** What a computation may add to the trace *)

Section Frames.

Context `{Externals}.

Variable P : event -> bool.

Lemma stays_ret {A} (a : A) : stays P (ret a).
Proof.
  intros w. exists (Done a), (dest w), []. rewrite extend_nil.
  repeat split.
Qed.

Lemma stays_bind {A B} (c : M A) (k : A -> M B) :
  stays P c -> (forall a, stays P (k a)) -> stays P (bind c k).
Proof.
  intros Hc Hk w. destruct (Hc w) as (o & d & evs & E & HP & Hne).
  unfold bind. rewrite E. destruct o as [a|e|n]; [| |contradiction].
  - destruct (Hk a (extend w d evs)) as (o' & d' & evs' & E' & HP' & Hne').
    rewrite E', extend_extend. exists o', d', (evs ++ evs')%list.
    rewrite forallb_app, HP, HP'. repeat split. exact Hne'.
  - exists (Throw e), d, evs. repeat split. exact HP.
Qed.

Lemma stays_event {A} (e : event) (a : A) :
  P e = true -> stays P (fun w => (Done a, emit e w)).
Proof.
  intros He w. exists (Done a), (dest w), [e]. simpl. rewrite He.
  repeat split.
Qed.

Lemma stays_lift {A} (r : result A) : stays P (lift r).
Proof.
  intros w. unfold lift. destruct r as [a|e].
  - exists (Done a), (dest w), []. rewrite extend_nil. repeat split.
  - exists (Throw e), (dest w), []. rewrite extend_nil. repeat split.
Qed.

Lemma stays_db_all (sql : string) :
  P (SrcQuery sql) = true -> stays P (db_all sql).
Proof.
  intros He w. unfold db_all.
  destruct (select_all_table sql ≫= _) as [rows|].
  - exists (Done rows), (dest w), [SrcQuery sql]. simpl. rewrite He. repeat split.
  - exists (Throw (SqliteError sql)), (dest w), [SrcQuery sql]. simpl. rewrite He.
    repeat split.
Qed.

Lemma stays_supabase_write (t : string) (op : write_op) (body : literal) :
  (forall err, P (DestWrite (Request t op body) err) = true) ->
  stays P (supabase_write t op body).
Proof.
  intros He w. unfold supabase_write.
  destruct (supabase_error (dest w) _) as [message|].
  - exists (Done (Some message)), (dest w), [DestWrite (Request t op body) (Some message)].
    simpl. rewrite He. repeat split.
  - exists (Done None), (apply_write (Request t op body) (dest w)),
      [DestWrite (Request t op body) None].
    simpl. rewrite He. repeat split.
Qed.

Lemma stays_supabase_count (t : string) :
  P (DestCount t) = true -> stays P (supabase_count t).
Proof.
  intros He w. exists (Done (count_answer (dest w) t)), (dest w), [DestCount t].
  simpl. rewrite He. repeat split.
Qed.

Lemma stays_for_of {A} (xs : list A) (body : A -> M unit) :
  (forall x, stays P (body x)) -> stays P (for_of xs body).
Proof.
  intros Hb. induction xs as [|x xs IH]; simpl.
  - apply stays_ret.
  - apply stays_bind; [apply Hb | intros _; exact IH].
Qed.

Hypothesis P_log : forall l, P (ConsoleLog l) = true.
Hypothesis P_error : forall l, P (ConsoleError l) = true.

Lemma stays_console_log (l : line) : stays P (console_log l).
Proof. apply (stays_event (ConsoleLog l) tt), P_log. Qed.

Lemma stays_console_error (l : line) : stays P (console_error l).
Proof. apply (stays_event (ConsoleError l) tt), P_error. Qed.

Lemma stays_row_step (s : shape) (r : row) :
  (forall body err, P (DestWrite (Request (sh_table s) (sh_op s) body) err) = true) ->
  stays P (row_step s r).
Proof.
  intros Hw. unfold row_step.
  apply stays_bind; [apply stays_lift|]. intros body.
  apply stays_bind; [apply stays_supabase_write, Hw|]. intros [message|].
  - apply stays_console_error.
  - apply stays_console_log.
Qed.

Lemma stays_migrate (s : shape) :
  P (SrcQuery (sh_sql s)) = true ->
  (forall body err, P (DestWrite (Request (sh_table s) (sh_op s) body) err) = true) ->
  stays P (migrate s).
Proof.
  intros Hq Hw. unfold migrate.
  apply stays_bind; [apply stays_console_log|]. intros _.
  apply stays_bind; [apply stays_db_all, Hq|]. intros rows.
  destruct (length rows =? 0)%nat.
  - apply stays_console_log.
  - apply stays_for_of. intros r. apply stays_row_step, Hw.
Qed.

Lemma stays_migration (t : table) :
  P (SrcQuery (sh_sql (shape_of t))) = true ->
  (forall body err,
     P (DestWrite (Request (table_name t) (sh_op (shape_of t)) body) err) = true) ->
  stays P (migration t).
Proof.
  intros Hq Hw. rewrite migration_shape. apply stays_migrate; [exact Hq|].
  rewrite shape_table. exact Hw.
Qed.

End Frames.

Section WholeRun.

Context `{Externals}.

Lemma allows_migration (P : event -> bool) (t : table) :
  allows P -> stays P (migration t).
Proof.
  intros (Hl & He & Hq & Hw & Hc).
  apply stays_migration; auto.
Qed.

Lemma stays_migrateAll (P : event -> bool) : allows P -> stays P migrateAll.
Proof.
  intros HP. pose proof HP as (Hl & He & Hq & Hw & Hc). unfold migrateAll.
  apply stays_bind; [apply (allows_migration P Users HP)|]. intros _.
  apply stays_bind; [apply (allows_migration P Events HP)|]. intros _.
  apply stays_bind; [apply (allows_migration P Fests HP)|]. intros _.
  apply stays_bind; [apply (allows_migration P Registrations HP)|]. intros _.
  apply stays_bind; [apply (allows_migration P Attendance HP)|]. intros _.
  apply stays_bind; [apply (allows_migration P QRScanLogs HP)|]. intros _.
  apply stays_bind; [apply stays_console_log, Hl|]. intros _.
  apply stays_bind; [apply stays_console_log, Hl|]. intros _.
  apply stays_bind; [apply stays_console_log, Hl|]. intros _.
  apply stays_bind; [apply stays_console_log, Hl|]. intros _.
  apply stays_bind; [apply stays_supabase_count, Hc|]. intros ?.
  apply stays_bind; [apply stays_supabase_count, Hc|]. intros ?.
  apply stays_bind; [apply stays_supabase_count, Hc|]. intros ?.
  apply stays_bind; [apply stays_console_log, Hl|]. intros _.
  apply stays_bind; [apply stays_console_log, Hl|]. intros _.
  apply stays_console_log, Hl.
Qed.

(** The [try] statement always completes: what [migrateAll] throws is
    logged by the [catch]. *)
Lemma tryMigrateAll_done (P : event -> bool) (w : world) :
  allows P ->
  exists d evs,
    tryMigrateAll w = (Done tt, extend w d evs) /\ forallb P evs = true.
Proof.
  intros HP. destruct (stays_migrateAll P HP w) as (o & d & evs & E & Hevs & Hne).
  destruct HP as (_ & He & _).
  unfold tryMigrateAll, try_catch. rewrite E.
  destruct o as [[]|e|n]; [| |contradiction].
  - exists d, evs. split; [reflexivity | exact Hevs].
  - exists d, (evs ++ [ConsoleError (MigrationFailed e)])%list. split.
    + unfold console_error, emit, extend. cbn [source dest service_key answer trace].
      rewrite <- app_assoc. reflexivity.
    + rewrite forallb_app, Hevs. simpl. rewrite He. reflexivity.
Qed.

Lemma emit_extend (e : event) (w : world) (d : tables) (evs : list event) :
  emit e (extend w d evs) = extend w d (evs ++ [e]).
Proof.
  unfold emit, extend. cbn [source dest service_key answer trace].
  rewrite <- app_assoc. reflexivity.
Qed.

Lemma bind_console_log {A} (l : line) (k : unit -> M A) (w : world) :
  bind (console_log l) k w = k tt (emit (ConsoleLog l) w).
Proof. reflexivity. Qed.

Lemma bind_fs_writeFileSync {A} (path : string) (k : unit -> M A) (w : world) :
  bind (fs_writeFileSync path) k w = k tt (emit (FileWrite path) w).
Proof. reflexivity. Qed.

Lemma instructions_run (w : world) :
  instructions w = (Done tt, extend w (dest w) instruction_events).
Proof.
  transitivity (instructions (extend w (dest w) []));
    [rewrite extend_nil; reflexivity|].
  unfold instructions.
  repeat (first [rewrite bind_console_log | rewrite bind_fs_writeFileSync];
          rewrite emit_extend; cbn [app]).
  unfold console_log. rewrite emit_extend. reflexivity.
Qed.

Lemma main_declined (w : world) :
  declined (answer w) = true ->
  main w =
    (Exit 0,
     extend w (dest w)
       (instruction_events ++ Prompt (answer w) :: declined_events)).
Proof.
  intros Hd. unfold main, bind at 1. rewrite instructions_run.
  unfold bind at 1, rl_question. cbn [answer extend emit].
  rewrite Hd. unfold bind, process_exit. norm_world. reflexivity.
Qed.

Lemma main_confirmed (P : event -> bool) (w : world) :
  allows P ->
  declined (answer w) = false ->
  exists d evs,
    main w =
      (Done tt,
       extend w d
         (instruction_events ++
          Prompt (answer w) :: ConsoleLog (Text "Starting data migration...") ::
          evs ++ [SrcClose])) /\
    forallb P evs = true.
Proof.
  intros HP Hd. unfold main, bind at 1. rewrite instructions_run.
  unfold bind at 1, rl_question. cbn [answer extend emit].
  rewrite Hd. unfold bind at 1, ret. unfold bind at 1, console_log.
  rewrite !emit_extend.
  match goal with |- context [bind tryMigrateAll _ ?w0] =>
    destruct (tryMigrateAll_done P w0 HP) as (d & evs & E & Hevs)
  end.
  exists d, evs. split; [|exact Hevs].
  unfold bind. rewrite E. unfold db_close.
  rewrite extend_extend, emit_extend, <- !app_assoc. reflexivity.
Qed.

End WholeRun.

(** ** The whole run *)

Section Runs.

Context `{Externals}.

Lemma allows_everything : allows (fun _ => true).
Proof. repeat split. Qed.

Lemma allows_reads_whole_tables : allows reads_whole_tables.
Proof.
  repeat split. intros t. unfold reads_whole_tables. rewrite shape_sql. reflexivity.
Qed.

Lemma declined_spec (reply : string) :
  declined reply = true <->
  toLowerCase reply <> "yes" /\ toLowerCase reply <> "y".
Proof.
  unfold declined. rewrite andb_true_iff, !negb_true_iff.
  split.
  - intros [Hyes Hy]. split.
    + apply String.eqb_neq, Hyes.
    + apply String.eqb_neq, Hy.
  - intros [Hyes Hy]. split.
    + apply String.eqb_neq, Hyes.
    + apply String.eqb_neq, Hy.
Qed.

(** C10.  Everything [main] does before the prompt is console output and
    the schema file; and when the reply, lowercased, is neither [yes] nor
    [y], what follows the prompt is console output again and the process
    exits with status 0: no table has been read, no write sent, and the
    destination is what it was. *)
Theorem no_write_before_confirmation (w : world) :
  exists o w' before after,
    main w = (o, w') /\
    trace w' = (trace w ++ before ++ Prompt (answer w) :: after)%list /\
    forallb touches_no_store before = true /\
    (toLowerCase (answer w) <> "yes" -> toLowerCase (answer w) <> "y" ->
       o = Exit 0 /\
       forallb touches_no_store after = true /\
       dest w' = dest w /\
       source w' = source w).
Proof.
  destruct (declined (answer w)) eqn:Hd.
  - eexists _, _, instruction_events, declined_events.
    split; [apply main_declined, Hd|].
    unfold extend. cbn [trace dest source].
    repeat split.
  - destruct (main_confirmed (fun _ => true) w allows_everything Hd)
      as (d & evs & E & _).
    eexists _, _, instruction_events, _.
    split; [exact E|].
    unfold extend. cbn [trace dest source].
    split; [reflexivity|]. split; [reflexivity|].
    intros Hyes Hy.
    assert (Hdecl : declined (answer w) = true) by (apply declined_spec; split; assumption).
    congruence.
Qed.

Lemma script_without_key (w : world) :
  key_missing (service_key w) = true ->
  script w =
    (Exit 1,
     extend w (dest w)
       [ConsoleError (Text "SUPABASE_SERVICE_ROLE_KEY is required in .env file")]).
Proof.
  intros Hk. unfold script. rewrite Hk. reflexivity.
Qed.

Lemma script_with_key (w : world) :
  key_missing (service_key w) = false ->
  script w = main (extend w (dest w) [SrcOpen "./data/socio-copy.db"]).
Proof.
  intros Hk. unfold script. rewrite Hk. reflexivity.
Qed.

(** C9, as the code has it.  No run changes the source.  A run without the
    service key never opens it; a run that is declined at the prompt opens
    it, reads nothing and exits without closing it; a confirmed run opens it
    once, then only runs whole-table [SELECT]s on it, and closes it once, as
    its last action. *)
Theorem source_is_only_read (w : world) :
  exists o w' evs,
    script w = (o, w') /\
    source w' = source w /\
    trace w' = (trace w ++ evs)%list /\
    ((key_missing (service_key w) = true /\
      o = Exit 1 /\ forallb touches_no_store evs = true) \/
     (key_missing (service_key w) = false /\ declined (answer w) = true /\
      o = Exit 0 /\
      exists mid,
        evs = SrcOpen "./data/socio-copy.db" :: mid /\
        forallb touches_no_store mid = true) \/
     (key_missing (service_key w) = false /\ declined (answer w) = false /\
      o = Done tt /\
      exists mid,
        evs = (SrcOpen "./data/socio-copy.db" :: mid ++ [SrcClose])%list /\
        forallb reads_whole_tables mid = true)).
Proof.
  destruct (key_missing (service_key w)) eqn:Hk.
  - rewrite (script_without_key w Hk).
    eexists _, _, _. split; [reflexivity|].
    unfold extend. cbn [source trace].
    split; [reflexivity|]. split; [reflexivity|].
    left. repeat split.
  - rewrite (script_with_key w Hk).
    destruct (declined (answer w)) eqn:Hd.
    + rewrite main_declined by exact Hd.
      rewrite extend_extend.
      eexists _, _, _. split; [reflexivity|].
      unfold extend. cbn [source trace answer].
      split; [reflexivity|]. split; [reflexivity|].
      right. left. repeat split.
      eexists. split; [reflexivity|]. reflexivity.
    + destruct (main_confirmed reads_whole_tables
                  (extend w (dest w) [SrcOpen "./data/socio-copy.db"])
                  allows_reads_whole_tables Hd) as (d & evs & E & Hevs).
      rewrite E, extend_extend.
      eexists _, _, _. split; [reflexivity|].
      unfold extend. cbn [source trace answer].
      split; [reflexivity|]. split; [reflexivity|].
      right. right. repeat split.
      exists (instruction_events ++
              Prompt (answer w) :: ConsoleLog (Text "Starting data migration...") :: evs)%list.
      split.
      * cbn [app]. rewrite <- app_assoc. reflexivity.
      * rewrite forallb_app. cbn. exact Hevs.
Qed.

End Runs.

(** ** A table that cannot be read *)

Section FailedRead.

Context `{Externals}.

Lemma bind_done {A B} (c : M A) (k : A -> M B) (w w' : world) (a : A) :
  c w = (Done a, w') -> bind c k w = k a w'.
Proof. intros E. unfold bind. rewrite E. reflexivity. Qed.

Lemma bind_throw {A B} (c : M A) (k : A -> M B) (w w' : world) (e : exn) :
  c w = (Throw e, w') -> bind c k w = (Throw e, w').
Proof. intros E. unfold bind. rewrite E. reflexivity. Qed.

Lemma for_of_cons_done {A} (x : A) (xs : list A) (body : A -> M unit) (w w1 : world) :
  for_of (x :: xs) body w = (Done tt, w1) ->
  exists w', body x w = (Done tt, w') /\ for_of xs body w' = (Done tt, w1).
Proof.
  cbn [for_of]. unfold bind. destruct (body x w) as [[[]|e|n] w']; try discriminate.
  intros E. exists w'. split; [reflexivity | exact E].
Qed.

(** [migrateAll] runs the migrations in [run_order]; the first one that
    throws ends it. *)
Lemma migrateAll_throws (pre post : list table) (t : table) (w w1 w2 : world) (e : exn) :
  run_order = (pre ++ t :: post)%list ->
  for_of pre migration w = (Done tt, w1) ->
  migration t w1 = (Throw e, w2) ->
  migrateAll w = (Throw e, w2).
Proof.
  intros Horder Hpre Ht. unfold run_order in Horder.
  repeat (destruct pre as [|? pre]; cbn [app] in Horder;
          [ injection Horder as <- <- | injection Horder as <- Horder ]);
    try (destruct pre; discriminate Horder);
    repeat (apply for_of_cons_done in Hpre;
            let w' := fresh "w'" in
            let Hstep := fresh "Hstep" in
            destruct Hpre as (w' & Hstep & Hpre));
    cbn [for_of] in Hpre; unfold ret in Hpre; injection Hpre as ->;
    cbn [migration] in *; unfold migrateAll;
    repeat match goal with
      | Hs : ?c ?w0 = (Done tt, ?w') |- context [bind ?c _ ?w0] =>
          erewrite (bind_done c _ w0 w' tt Hs)
      end;
    erewrite (bind_throw _ _ _ _ _ Ht); reflexivity.
Qed.

Lemma stays_apart (t u : table) :
  u <> t -> stays (fun e => negb (concerns t e)) (migration u).
Proof.
  intros Hne. apply stays_migration; try reflexivity.
  - cbn [concerns]. destruct u, t; try reflexivity; contradiction.
  - intros body err. cbn [concerns rq_table].
    destruct u, t; try reflexivity; contradiction.
Qed.

Lemma stays_apart_all (t : table) (us : list table) :
  ~ In t us -> stays (fun e => negb (concerns t e)) (for_of us migration).
Proof.
  intros Hnot. induction us as [|u us IH]; cbn [for_of].
  - apply stays_ret.
  - apply stays_bind.
    + apply stays_apart. intros ->. apply Hnot. left. reflexivity.
    + intros _. apply IH. intros Hin. apply Hnot. right. exact Hin.
Qed.

Lemma run_order_later (pre post : list table) (t t' : table) :
  run_order = (pre ++ t :: post)%list -> In t' post -> ~ In t' pre /\ t <> t'.
Proof.
  intros Horder Hin.
  assert (Hnd : List.NoDup (pre ++ t :: post)).
  { rewrite <- Horder. unfold run_order.
    repeat (constructor; [cbn; intuition discriminate|]). constructor. }
  split.
  - intros Hpre. revert Hnd. clear Horder.
    induction pre as [|u pre IH]; [destruct Hpre|].
    cbn [app]. intros Hnd. inversion Hnd as [|? ? Hu Hnd']; subst.
    destruct Hpre as [-> | Hpre].
    + apply Hu. apply in_or_app. right. right. exact Hin.
    + exact (IH Hpre Hnd').
  - intros ->. apply List.NoDup_remove_2 in Hnd. apply Hnd.
    apply in_or_app. right. exact Hin.
Qed.

(** C7, as the code has it.  When a table cannot be read, its migration
    throws to its caller before any write; the single [try] statement
    around the six migrations catches the error and logs it, and the
    migrations that come later in the order are not run: none of their
    tables is queried or written in the whole run.  The tables migrated
    before keep what was written. *)
Theorem failed_read_ends_the_migration
  (pre post : list table) (t : table) (w w1 : world) :
  run_order = (pre ++ t :: post)%list ->
  for_of pre migration w = (Done tt, w1) ->
  source w !! table_name t = None ->
  migration t w1 =
    (Throw (SqliteError (sh_sql (shape_of t))),
     extend w1 (dest w1) (opening (shape_of t))) /\
  tryMigrateAll w =
    (Done tt,
     extend w1 (dest w1)
       (opening (shape_of t) ++
        [ConsoleError (MigrationFailed (SqliteError (sh_sql (shape_of t))))])) /\
  exists evs,
    trace w1 = (trace w ++ evs)%list /\
    forall t', In t' post ->
      forallb (fun e => negb (concerns t' e))
        (evs ++ opening (shape_of t) ++
         [ConsoleError (MigrationFailed (SqliteError (sh_sql (shape_of t))))]) = true.
Proof.
  intros Horder Hpre Hsrc.
  assert (Hframe : exists d evs, w1 = extend w d evs).
  { destruct (stays_for_of (fun _ => true) pre migration
                (fun u => allows_migration _ u allows_everything) w)
      as (o & d & evs & E & _ & _).
    rewrite E in Hpre. injection Hpre as _ <-. exists d, evs. reflexivity. }
  destruct Hframe as (d & evs & ->).
  assert (Hthrow := migration_missing t (extend w d evs) Hsrc).
  split; [exact Hthrow|]. split.
  - unfold tryMigrateAll, try_catch.
    rewrite (migrateAll_throws pre post t w _ _ _ Horder Hpre Hthrow).
    unfold console_error. norm_world. reflexivity.
  - exists evs. split; [reflexivity|]. intros t' Hin.
    destruct (run_order_later pre post t t' Horder Hin) as [Hnot Hne].
    destruct (stays_apart_all t' pre Hnot w) as (o' & d' & evs' & E' & Hevs' & _).
    rewrite E' in Hpre.
    assert (evs' = evs) as ->.
    { apply (f_equal snd) in Hpre. apply (f_equal trace) in Hpre.
      unfold extend in Hpre. cbn [snd trace] in Hpre.
      apply app_inv_head in Hpre. exact Hpre. }
    rewrite forallb_app, Hevs'. cbn [andb].
    unfold opening. cbn [app forallb concerns].
    destruct t, t'; try reflexivity; contradiction.
Qed.

End FailedRead.

(** ** The destination under upserts and inserts *)

Section Destination.

Variable k : string.























End Destination.

Section AcceptedWrites.

Context `{Externals}.

Hypothesis accepts : forall d rq, supabase_error d rq = None.

Lemma rows_dest_accepted (s : shape) (rows : list row) (d : tables) :
  rows_dest s rows (answers s rows d) d = writes_all s rows d.
Proof.
  revert d. induction rows as [|r rows IH]; intros d; [reflexivity|].
  cbn [answers rows_dest writes_all fold_left]. rewrite accepts.
  cbn [after_write]. apply IH.
Qed.


End AcceptedWrites.

Section WritesAll.

Lemma table_rows_apply_write (rq : request) (d : tables) :
  table_rows (apply_write rq d) (rq_table rq) =
    match rq_op rq with
    | Upsert k => upsert_rows k (stored (rq_body rq)) (table_rows d (rq_table rq))
    | Insert => (table_rows d (rq_table rq) ++ [stored (rq_body rq)])%list
    end.
Proof.
  unfold apply_write, table_rows. rewrite lookup_insert_eq. reflexivity.
Qed.

Lemma table_rows_request (s : shape) (r : row) (d : tables) :
  table_rows (apply_write (request_of s r) d) (sh_table s) =
    match sh_op s with
    | Upsert k => upsert_rows k (stored_row s r) (table_rows d (sh_table s))
    | Insert => (table_rows d (sh_table s) ++ [stored_row s r])%list
    end.
Proof. exact (table_rows_apply_write (request_of s r) d). Qed.

Lemma writes_all_cons (s : shape) (r : row) (rows : list row) (d : tables) :
  writes_all s (r :: rows) d = writes_all s rows (apply_write (request_of s r) d).
Proof. reflexivity. Qed.

Lemma upsert_all_cons (k : string) (p : row) (ps rows : list row) :
  upsert_all k (p :: ps) rows = upsert_all k ps (upsert_rows k p rows).
Proof. reflexivity. Qed.

Lemma table_rows_upserts (s : shape) (k : string) (rows : list row) (d : tables) :
  sh_op s = Upsert k ->
  table_rows (writes_all s rows d) (sh_table s) =
    upsert_all k (map (stored_row s) rows) (table_rows d (sh_table s)).
Proof.
  intros Hop. revert d. induction rows as [|r rows IH]; intros d; [reflexivity|].
  rewrite writes_all_cons, IH. cbn [map]. rewrite upsert_all_cons. f_equal.
  rewrite table_rows_request, Hop. reflexivity.
Qed.

Lemma table_rows_inserts (s : shape) (rows : list row) (d : tables) :
  sh_op s = Insert ->
  table_rows (writes_all s rows d) (sh_table s) =
    (table_rows d (sh_table s) ++ map (stored_row s) rows)%list.
Proof.
  intros Hop. revert d. induction rows as [|r rows IH]; intros d.
  - simpl. rewrite app_nil_r. reflexivity.
  - rewrite writes_all_cons, IH, table_rows_request, Hop.
    cbn [map]. rewrite <- app_assoc. reflexivity.
Qed.

End WritesAll.

(** ** Running a migration twice *)

Section Twice.

Context `{Externals}.

Lemma stays_run {A} (P : event -> bool) (c : M A) (w : world)
  (o : outcome A) (d : tables) (evs : list event) :
  stays P c -> c w = (o, extend w d evs) -> forallb P evs = true.
Proof.
  intros Hs E. destruct (Hs w) as (o' & d' & evs' & E' & HP & _).
  rewrite E in E'. apply (f_equal snd) in E'. apply (f_equal trace) in E'.
  unfold extend in E'. cbn [snd trace] in E'. apply app_inv_head in E'.
  subst evs'. exact HP.
Qed.





(** No literal names a column twice. *)
Lemma columns_distinct (t : table) : List.NoDup (columns t).
Proof.
  destruct t; cbn [columns];
    repeat (constructor; [cbn [In]; intuition discriminate|]); constructor.
Qed.












End Twice.

(** ** The mapping, column by column *)

Section Columns.

Context `{Externals}.

(** Every property of a literal is a column of the destination schema; the
    schema's [id] is never set, and neither is [users.register_number]. *)
Lemma columns_in_schema (t : table) (c : string) :
  In c (columns t) -> In c (createTablesSQL_columns t) /\ c <> "id".
Proof.
  intros Hin. destruct t; in_cases Hin; (split; [cbn; tauto | discriminate]).
Qed.

Lemma register_number_is_not_set :
  In "register_number" (createTablesSQL_columns Users) /\
  existsb (String.eqb "register_number") (columns Users) = false.
Proof. split; [cbn; tauto | reflexivity]. Qed.

(** C8, as the code has it.  Each table has a fixed list of columns; the
    literal built from a row has one property per listed column, under the
    column's name and in the listed order, and the value of that property
    is computed from that column of the row alone.  A literal is built for
    every row, except when [JSON.parse] throws on one of the JSON columns. *)
Theorem mapping_is_fixed_on_listed_columns (t : table) (r : row) :
  List.NoDup (columns t) /\
  match payload t r with
  | Ok body =>
      map fst body = columns t /\
      forall c, In c (columns t) ->
        exists v, convert t c (prop r c) = Ok v /\ field c body = Some v
  | Raise e =>
      exists c, In c (json_columns t) /\ convert t c (prop r c) = Raise e
  end.
Proof.
  split; [apply columns_distinct|].
  destruct (payload t r) as [body|e] eqn:Hp.
  - destruct t; open_payload Hp; (split; [reflexivity|]);
      intros c Hin; in_cases Hin;
      eexists; (split; [first [eassumption | reflexivity] | reflexivity]).
  - unfold payload in Hp.
    destruct t; cbn [shape_of sh_payload] in Hp;
      unfold usersPayload, eventsPayload, festsPayload, registrationsPayload,
        attendancePayload, qrScanLogsPayload in Hp;
      repeat match type of Hp with
        | context [parse_or_null ?v] =>
            let E := fresh "E" in
            destruct (parse_or_null v) eqn:E; cbn [result_bind] in Hp
        end;
      try discriminate Hp; injection Hp as <-;
      match goal with
      | E : parse_or_null (prop r ?c) = Raise _ |- _ =>
          exists c; split; [cbn; tauto | exact E]
      end.
Qed.

End Columns.

(** * Concrete runs *)

(** Closed conjunctions of equations between evaluated terms. *)
Ltac evaluate := repeat (split; [reflexivity|]); reflexivity.

(** The reference parser on the text of the specification's example. *)
Example parse_sample_object :
  Json.parse (JStr (Json.quoted "{'a':1}")) = Some (JObj [("a", JNum 1)]).
Proof. reflexivity. Qed.

Example parse_refuses_broken_text : Json.parse (JStr "{oops") = None.
Proof. reflexivity. Qed.



(** C2, as stated, fails: the second event's [rules] is not JSON, so
    [JSON.parse] throws out of the loop and the third event is never
    submitted; and the line logged for the first event, whose write is
    refused, carries its title, not its [event_id]. *)
Lemma undecodable_row_ends_the_table :
  fst (@migrateEvents (refusing "event_id" (JStr "E1") "refused") events_world) =
    Throw (SyntaxError (JStr "{oops")) /\
  List.filter is_dest_write
    (trace (snd (@migrateEvents (refusing "event_id" (JStr "E1") "refused") events_world))) =
    [ DestWrite
        (request_of (@shape_of (refusing "event_id" (JStr "E1") "refused") Events)
                    opening_night)
        (Some "refused") ] /\
  List.filter is_row_error
    (trace (snd (@migrateEvents (refusing "event_id" (JStr "E1") "refused") events_world))) =
    [ ConsoleError (RowError (JStr "Opening night") "refused") ] /\
  prop opening_night "event_id" = JStr "E1" /\
  decodable (@shape_of (refusing "event_id" (JStr "E1") "refused") Events) closing_night = true.
Proof. evaluate. Qed.

(** C2: three users, the write of the second one refused. *)
Lemma refused_writes_are_logged_and_passed_over_witness :
  exists w',
    @migration (refusing "email" (JStr "bob@example.org") "duplicate key value")
      Users three_users_world = (Done tt, w') /\
    table_rows (dest w') "users" =
      [ stored_row (@shape_of accepting Users) alice;
        stored_row (@shape_of accepting Users) carol ] /\
    List.filter is_row_error (trace w') =
      [ ConsoleError (RowError (JStr "bob@example.org") "duplicate key value") ] /\
    length (List.filter is_dest_write (trace w')) = 3%nat.
Proof.
  destruct (@refused_writes_are_logged_and_passed_over
              (refusing "email" (JStr "bob@example.org") "duplicate key value")
              Users three_users_world [alice; bob; carol])
    as [Hpassed _]; [reflexivity|].
  destruct Hpassed as (w' & E & Htr & _ & _ & _ & Hthree);
    [discriminate | reflexivity |].
  destruct (Hthree alice bob carol "duplicate key value" eq_refl)
    as [Hdest _]; [reflexivity|].
  exists w'. split; [exact E|]. rewrite Hdest, Htr.
  repeat split.
Defined.



(** C5: an empty [users] table. *)
Lemma empty_table_is_a_noop_witness :
  exists w',
    @migration accepting Users empty_users_world = (Done tt, w') /\
    trace w' =
      [ ConsoleLog (Text "Migrating users...");
        SrcQuery "SELECT * FROM users";
        ConsoleLog (Text "No users to migrate") ] /\
    dest w' = dest empty_users_world.
Proof.
  destruct (@empty_table_is_a_noop accepting Users empty_users_world)
    as (w' & E & Htr & _ & Hd & _).
  - reflexivity.
  - exists w'. repeat split; assumption.
Defined.


(** C7, as stated, fails: without a [users] table the run ends in the
    [catch]; the [events] table, which holds a row, is never queried and
    nothing is written to the destination. *)
Lemma unreadable_table_stops_the_others :
  fst (@script accepting no_users_world) = Done tt /\
  source no_users_world !! "events" = Some [opening_night] /\
  List.filter (@concerns accepting Events)
    (trace (snd (@script accepting no_users_world))) = [] /\
  List.filter is_dest_write (trace (snd (@script accepting no_users_world))) = [] /\
  List.filter is_src_query (trace (snd (@script accepting no_users_world))) =
    [SrcQuery "SELECT * FROM users"].
Proof. evaluate. Qed.

(** C7: the [users] table is missing. *)
Lemma failed_read_ends_the_migration_witness :
  @migration accepting Users no_users_world =
    (Throw (SqliteError "SELECT * FROM users"),
     extend no_users_world (dest no_users_world)
       (opening (@shape_of accepting Users))) /\
  @tryMigrateAll accepting no_users_world =
    (Done tt,
     extend no_users_world (dest no_users_world)
       (opening (@shape_of accepting Users) ++
        [ConsoleError (MigrationFailed (SqliteError "SELECT * FROM users"))])).
Proof.
  destruct (@failed_read_ends_the_migration accepting
              [] [Events; Fests; Registrations; Attendance; QRScanLogs] Users
              no_users_world no_users_world)
    as (Hthrow & Htry & _).
  - reflexivity.
  - reflexivity.
  - reflexivity.
  - split; [exact Hthrow | exact Htry].
Defined.

(** C8, as stated, fails: the [id] column of a users row has no property in
    the literal; and no literal is built for an event whose [rules] is not
    JSON. *)
Lemma surrogate_id_is_not_carried :
  alice !! "id" = Some (JNum 7) /\
  @payload accepting Users alice =
    Ok [ ("auth_uuid", JUndefined);
         ("email", JStr "alice@example.org");
         ("name", JStr "Alice");
         ("avatar_url", JUndefined);
         ("is_organiser", JBool true);
         ("course", JStr "BCA");
         ("created_at", JStr "2024-01-05") ] /\
  field "id" (body_of (@shape_of accepting Users) alice) = None /\
  @payload accepting Events broken_rules = Raise (SyntaxError (JStr "{oops")).
Proof. evaluate. Qed.

(** C9, as stated, fails: a declined run opens the source and leaves
    through [process.exit(0)] without closing it; a run without the service
    key leaves through [process.exit(1)] before opening it. *)
Lemma declined_run_does_not_close_the_source :
  fst (@script accepting declined_world) = Exit 0 /\
  List.filter is_src_open (trace (snd (@script accepting declined_world))) =
    [SrcOpen "./data/socio-copy.db"] /\
  List.filter is_src_close (trace (snd (@script accepting declined_world))) = [] /\
  fst (@script accepting keyless_world) = Exit 1 /\
  List.filter is_src_open (trace (snd (@script accepting keyless_world))) = [].
Proof. evaluate. Qed.

(** C10: the operator answers [No]. *)
Lemma no_write_before_confirmation_witness :
  exists w',
    @main accepting declined_world = (Exit 0, w') /\
    dest w' = dest declined_world /\
    List.filter is_dest_write (trace w') = [] /\
    List.filter is_src_query (trace w') = [].
Proof.
  destruct (@no_write_before_confirmation accepting declined_world)
    as (o & w' & before & after & E & _ & _ & Hdeclined).
  destruct Hdeclined as (-> & _ & Hd & _).
  - vm_compute. discriminate.
  - vm_compute. discriminate.
  - exists w'. split; [exact E|]. split; [exact Hd|].
    assert (Hw : w' = snd (@main accepting declined_world))
      by (rewrite E; reflexivity).
    rewrite Hw. split; reflexivity.
Defined.

(** * Further properties of the script *)

(** ** The confirmation prompt *)

Section Prompt.

Context `{Externals}.

Lemma lower_ascii_y (c : ascii) :
  lower_ascii c = "y"%char -> c = "y"%char \/ c = "Y"%char.
Proof.
  destruct c as [[] [] [] [] [] [] [] []]; vm_compute; intros E;
    first [discriminate E | left; reflexivity | right; reflexivity].
Qed.

Lemma lower_ascii_e (c : ascii) :
  lower_ascii c = "e"%char -> c = "e"%char \/ c = "E"%char.
Proof.
  destruct c as [[] [] [] [] [] [] [] []]; vm_compute; intros E;
    first [discriminate E | left; reflexivity | right; reflexivity].
Qed.

Lemma lower_ascii_s (c : ascii) :
  lower_ascii c = "s"%char -> c = "s"%char \/ c = "S"%char.
Proof.
  destruct c as [[] [] [] [] [] [] [] []]; vm_compute; intros E;
    first [discriminate E | left; reflexivity | right; reflexivity].
Qed.

(** X1.  The prompt takes as a yes exactly the replies [yes] and [y] in any
    mix of capital and small letters; every other reply, the empty one and
    one with a space around it included, is declined. *)
Theorem prompt_accepts_yes_in_any_case (reply : string) :
  declined reply = false <-> In reply accepted_replies.
Proof.
  split.
  - intros Hd. unfold declined in Hd.
    apply andb_false_iff in Hd. rewrite !negb_false_iff, !String.eqb_eq in Hd.
    destruct Hd as [Hyes | Hy].
    + destruct reply as [|c1 [|c2 [|c3 [|c4 rest]]]]; try discriminate Hyes.
      cbn [toLowerCase] in Hyes. injection Hyes as H1 H2 H3.
      apply lower_ascii_y in H1. apply lower_ascii_e in H2. apply lower_ascii_s in H3.
      destruct H1 as [-> | ->], H2 as [-> | ->], H3 as [-> | ->]; cbn; tauto.
    + destruct reply as [|c1 [|c2 rest]]; try discriminate Hy.
      cbn [toLowerCase] in Hy. injection Hy as H1.
      apply lower_ascii_y in H1. destruct H1 as [-> | ->]; cbn; tauto.
  - intros Hin. unfold accepted_replies in Hin. in_cases Hin; reflexivity.
Qed.

End Prompt.

(** ** The row mappings, continued *)

Section MappingFrame.

Context `{Externals}.

Lemma prop_insert_other (r : row) (c c' : string) (v : jsval) :
  c <> c' -> prop (<[c := v]> r) c' = prop r c'.
Proof. intros Hne. unfold prop. rewrite lookup_insert_ne by exact Hne. reflexivity. Qed.

(** X2.  A column the literal of a table does not list has no influence on
    what is sent: whatever value a row holds there (the [id] of any table,
    [register_number] of a user), the payload is the same, thrown error
    included. *)
Theorem payload_ignores_unlisted_columns
  (t : table) (c : string) (v : jsval) (r : row) :
  ~ In c (columns t) ->
  payload t (<[c := v]> r) = payload t r.
Proof.
  intros Hnot.
  assert (Hprop : forall c', In c' (columns t) -> prop (<[c := v]> r) c' = prop r c').
  { intros c' Hin. apply prop_insert_other. intros ->. exact (Hnot Hin). }
  unfold payload.
  destruct t; cbn [shape_of sh_payload];
    unfold usersPayload, eventsPayload, festsPayload, registrationsPayload,
      attendancePayload, qrScanLogsPayload;
    rewrite !Hprop by (cbn; tauto); reflexivity.
Qed.

(** X3.  [total_participants] of an event is sent as the source value when
    that value is truthy and as the number 0 otherwise (null, absent, 0 or
    the empty text): the property is never null. *)
Theorem total_participants_defaults_to_zero (event : row) (body : literal) :
  payload Events event = Ok body ->
  (truthy (prop event "total_participants") = true ->
     field "total_participants" body = Some (prop event "total_participants")) /\
  (truthy (prop event "total_participants") = false ->
     field "total_participants" body = Some (JNum 0)) /\
  exists v, field "total_participants" body = Some v /\ v <> JNull /\ v <> JUndefined.
Proof.
  intros Hp.
  assert (Hf : field "total_participants" body =
               Some (js_or (prop event "total_participants") (JNum 0))).
  { open_payload Hp. reflexivity. }
  rewrite Hf. unfold js_or.
  destruct (truthy (prop event "total_participants")) eqn:Ht.
  - split; [reflexivity|]. split; [discriminate|].
    eexists. split; [reflexivity|].
    split; intros E; rewrite E in Ht; discriminate Ht.
  - split; [discriminate|]. split; [reflexivity|].
    eexists. split; [reflexivity|]. split; discriminate.
Qed.

End MappingFrame.

(** ** A run in which every table can be read *)

Section Completion.

Context `{Externals}.

Lemma readable_rows (src : tables) (t : table) :
  readable src t = true ->
  src !! table_name t = Some (src_rows src t) /\
  forallb (decodable (shape_of t)) (src_rows src t) = true.
Proof.
  unfold readable, src_rows. destruct (src !! table_name t) as [rows|];
    [|discriminate]. intros Hall. split; [reflexivity | exact Hall].
Qed.

Lemma migration_completes (t : table) (w : world) :
  readable (source w) t = true ->
  migration t w =
    (Done tt,
     extend w (dest_after t (src_rows (source w) t) (dest w))
       (migration_events t (src_rows (source w) t) (dest w))).
Proof.
  intros Hr. apply readable_rows in Hr as [Hsrc Hall].
  unfold dest_after, migration_events.
  destruct (src_rows (source w) t) as [|r rows] eqn:Erows.
  - rewrite (migration_empty t w Hsrc). reflexivity.
  - rewrite (migration_rows t w r rows Hsrc).
    rewrite (for_of_decodable _ _ _ Hall), extend_extend. reflexivity.
Qed.

Lemma for_of_completes (ts : list table) (w : world) :
  forallb (readable (source w)) ts = true ->
  for_of ts migration w =
    (Done tt,
     extend w (snd (run_tables (source w) ts (dest w)))
       (fst (run_tables (source w) ts (dest w)))).
Proof.
  revert w. induction ts as [|t ts IH]; intros w Hall.
  - cbn. unfold ret. rewrite extend_nil. reflexivity.
  - cbn [forallb] in Hall. apply andb_prop in Hall as [Ht Hall].
    cbn [for_of run_tables fst snd].
    rewrite (bind_done _ _ _ _ _ (migration_completes t w Ht)). cbv beta.
    match goal with |- for_of ts migration ?w0 = _ => rewrite (IH w0 Hall) end.
    rewrite extend_extend. reflexivity.
Qed.

Lemma bind_supabase_count {A} (t : string) (k : option nat -> M A) (w : world) :
  bind (supabase_count t) k w =
    k (count_answer (dest w) t) (emit (DestCount t) w).
Proof. reflexivity. Qed.

(** Once the six migrations have returned, [migrateAll] logs its banner,
    counts three tables and logs the counts. *)
Lemma migrateAll_after_tables (w w1 : world) :
  for_of run_order migration w = (Done tt, w1) ->
  migrateAll w = (Done tt, extend w1 (dest w1) (verification_events (dest w1))).
Proof.
  intros Hall. unfold run_order in Hall.
  repeat (apply for_of_cons_done in Hall;
          let w' := fresh "w'" in
          let Hstep := fresh "Hstep" in
          destruct Hall as (w' & Hstep & Hall)).
  cbn [for_of] in Hall. unfold ret in Hall. injection Hall as ->.
  cbn [migration] in *. unfold migrateAll.
  repeat match goal with
    | Hs : ?c ?w0 = (Done tt, ?w') |- context [bind ?c _ ?w0] =>
        erewrite (bind_done c _ w0 w' tt Hs)
    end.
  rewrite <- (extend_nil w1) at 1.
  repeat (rewrite bind_console_log, emit_extend; cbn [app]).
  repeat (rewrite bind_supabase_count, emit_extend; cbn [app dest extend]).
  repeat (rewrite bind_console_log, emit_extend; cbn [app]).
  unfold console_log. rewrite emit_extend. reflexivity.
Qed.

Lemma rows_events_reads (s : shape) (rows : list row) (errs : list (option string)) :
  List.filter is_read (rows_events s rows errs) = [].
Proof.
  revert errs. induction rows as [|r rows IH]; intros [|err errs]; try reflexivity.
  cbn. rewrite IH. destruct err; reflexivity.
Qed.

Lemma migration_events_reads (t : table) (rows : list row) (d : tables) :
  List.filter is_read (migration_events t rows d) = [SrcQuery (sh_sql (shape_of t))].
Proof.
  unfold migration_events, opening. cbn [app List.filter is_read].
  destruct rows as [|r rows]; [reflexivity|].
  rewrite rows_events_reads. reflexivity.
Qed.

Lemma run_tables_reads (src : tables) (ts : list table) (d : tables) :
  List.filter is_read (fst (run_tables src ts d)) =
    map (fun t => SrcQuery (sh_sql (shape_of t))) ts.
Proof.
  revert d. induction ts as [|t ts IH]; intros d; [reflexivity|].
  cbn [run_tables fst map]. rewrite List.filter_app, migration_events_reads, IH.
  reflexivity.
Qed.

Lemma rows_writes_length (s : shape) (rows : list row) (d : tables) :
  length (rows_writes s rows (answers s rows d)) = length rows.
Proof.
  revert d. induction rows as [|r rows IH]; intros d; [reflexivity|].
  cbn. rewrite IH. reflexivity.
Qed.

Lemma migration_events_writes (t : table) (rows : list row) (d : tables) :
  length (List.filter is_dest_write (migration_events t rows d)) = length rows.
Proof.
  unfold migration_events, opening. cbn [app List.filter is_dest_write].
  destruct rows as [|r rows]; [reflexivity|].
  rewrite rows_events_writes. apply rows_writes_length.
Qed.

Lemma run_tables_writes (src : tables) (ts : list table) (d : tables) :
  length (List.filter is_dest_write (fst (run_tables src ts d))) =
    list_sum (map (fun t => length (src_rows src t)) ts).
Proof.
  revert d. induction ts as [|t ts IH]; intros d; [reflexivity|].
  cbn [run_tables fst map list_sum]. 
  rewrite List.filter_app, length_app, migration_events_writes, IH. reflexivity.
Qed.

(** X4.  When the six tables exist and the payload of every row can be
    built, the [try] block runs to its end whatever the backend answers:
    the six tables are read in order, one write is sent per source row, the
    completion banner is printed and three tables are counted; the [catch]
    is not entered, even if every write has been refused. *)
Theorem run_completes_whatever_the_backend_answers (w : world) :
  forallb (readable (source w)) run_order = true ->
  exists w' evs,
    migrateAll w = (Done tt, w') /\
    tryMigrateAll w = (Done tt, w') /\
    trace w' = (trace w ++ evs)%list /\
    List.filter is_read evs =
      [ SrcQuery "SELECT * FROM users"; SrcQuery "SELECT * FROM events";
        SrcQuery "SELECT * FROM fests"; SrcQuery "SELECT * FROM registrations";
        SrcQuery "SELECT * FROM attendance_status";
        SrcQuery "SELECT * FROM qr_scan_logs";
        DestCount "users"; DestCount "events"; DestCount "registrations" ] /\
    length (List.filter is_dest_write evs) =
      list_sum (map (fun t => length (src_rows (source w) t)) run_order) /\
    In (ConsoleLog (Text "Migration completed successfully!")) evs.
Proof.
  intros Hall.
  pose proof (for_of_completes run_order w Hall) as Hrun.
  pose proof (migrateAll_after_tables w _ Hrun) as Hdone.
  rewrite extend_extend in Hdone.
  eexists _, _. split; [exact Hdone|]. split.
  - unfold tryMigrateAll, try_catch. rewrite Hdone. reflexivity.
  - unfold extend at 1. cbn [trace]. split; [reflexivity|].
    rewrite !List.filter_app, length_app.
    rewrite run_tables_reads, run_tables_writes.
    split; [reflexivity|]. split.
    + cbn [dest extend verification_events List.filter is_dest_write length].
      apply Nat.add_0_r.
    + apply in_or_app. right. right. left. reflexivity.
Qed.

(** X5.  In such a run the last things done are the counts of [users],
    [events] and [registrations], asked once all six migrations are over,
    and the three lines that log them; [fests], [attendance_status] and
    [qr_scan_logs] are not counted.  Each line carries the [count] field of
    the answer: the size of the table when the count is answered, and
    [null] when the backend reports an error for it.  The [error] field is
    not looked at, so a failed count is not reported and does not keep the
    run from completing. *)
Theorem verification_counts_three_tables (w : world) :
  forallb (readable (source w)) run_order = true ->
  exists w' before,
    migrateAll w = (Done tt, w') /\
    trace w' =
      (trace w ++ before ++
       [ DestCount "users"; DestCount "events"; DestCount "registrations";
         ConsoleLog (RowCount "Users in Supabase" (count_answer (dest w') "users"));
         ConsoleLog (RowCount "Events in Supabase" (count_answer (dest w') "events"));
         ConsoleLog (RowCount "Registrations in Supabase"
                       (count_answer (dest w') "registrations")) ])%list /\
    List.filter is_count_line before = [] /\
    forall t,
      (supabase_count_error (dest w') t = None ->
       count_answer (dest w') t = Some (length (table_rows (dest w') t))) /\
      (forall message, supabase_count_error (dest w') t = Some message ->
       count_answer (dest w') t = None).
Proof.
  intros Hall.
  pose proof (for_of_completes run_order w Hall) as Hrun.
  pose proof (migrateAll_after_tables w _ Hrun) as Hdone.
  rewrite extend_extend in Hdone.
  eexists _, (fst (run_tables (source w) run_order (dest w)) ++
              [ ConsoleLog Rule;
                ConsoleLog (Text "Migration completed successfully!");
                ConsoleLog Rule;
                ConsoleLog (Text "Verifying migration...") ])%list.
  split; [exact Hdone|].
  unfold extend at 1. cbn [trace dest]. split.
  { unfold verification_events. rewrite <- !app_assoc. reflexivity. }
  split.
  { rewrite List.filter_app. cbn [List.filter is_count_line]. rewrite app_nil_r.
    generalize run_order, (dest w).
    induction l as [|t ts IH]; intros d; [reflexivity|].
    cbn [run_tables fst]. rewrite List.filter_app, IH, app_nil_r.
    unfold migration_events, opening. cbn [app List.filter is_count_line].
    destruct (src_rows (source w) t) as [|r rows]; [reflexivity|].
    generalize (answers (shape_of t) (r :: rows) d).
    generalize (r :: rows). clear.
    induction l as [|x l IHl]; intros [|err errs]; try reflexivity.
    cbn. rewrite IHl. destruct err; reflexivity. }
  intros t. unfold count_answer. split.
  - intros ->. reflexivity.
  - intros message ->. reflexivity.
Qed.

End Completion.

(** ** A run in which every write is accepted *)

Section AcceptedRun.

Context `{Externals}.

Lemma table_rows_apply_write_other (rq : request) (d : tables) (u : string) :
  u <> rq_table rq -> table_rows (apply_write rq d) u = table_rows d u.
Proof.
  intros Hne. unfold apply_write, table_rows.
  rewrite lookup_insert_ne by congruence. reflexivity.
Qed.

(** The writes of a table leave the other destination tables alone. *)
Lemma rows_dest_other (s : shape) (rows : list row) (errs : list (option string))
  (d : tables) (u : string) :
  u <> sh_table s ->
  table_rows (rows_dest s rows errs d) u = table_rows d u.
Proof.
  intros Hne. revert errs d.
  induction rows as [|r rows IH]; intros [|err errs] d; try reflexivity.
  cbn [rows_dest]. rewrite IH. destruct err as [message|]; [reflexivity|].
  apply table_rows_apply_write_other. exact Hne.
Qed.

Lemma run_tables_other (src : tables) (ts : list table) (d : tables) (u : string) :
  (forall t, In t ts -> u <> table_name t) ->
  table_rows (snd (run_tables src ts d)) u = table_rows d u.
Proof.
  revert d. induction ts as [|t ts IH]; intros d Hts; [reflexivity|].
  cbn [run_tables snd]. rewrite IH.
  - unfold dest_after. apply rows_dest_other. rewrite shape_table.
    apply Hts. left. reflexivity.
  - intros t' Hin. apply Hts. right. exact Hin.
Qed.

Lemma run_tables_app (src : tables) (ts us : list table) (d : tables) :
  snd (run_tables src (ts ++ us) d) =
    snd (run_tables src us (snd (run_tables src ts d))).
Proof.
  revert d. induction ts as [|t ts IH]; intros d; [reflexivity|].
  cbn [app run_tables snd]. apply IH.
Qed.

Lemma run_order_around (t : table) :
  exists pre post,
    run_order = (pre ++ t :: post)%list /\
    (forall t', In t' pre -> sh_table (shape_of t) <> table_name t') /\
    (forall t', In t' post -> sh_table (shape_of t) <> table_name t').
Proof.
  destruct t.
  - exists [], [Events; Fests; Registrations; Attendance; QRScanLogs].
    repeat split; cbn; intros t' Hin; intuition (subst; discriminate).
  - exists [Users], [Fests; Registrations; Attendance; QRScanLogs].
    repeat split; cbn; intros t' Hin; intuition (subst; discriminate).
  - exists [Users; Events], [Registrations; Attendance; QRScanLogs].
    repeat split; cbn; intros t' Hin; intuition (subst; discriminate).
  - exists [Users; Events; Fests], [Attendance; QRScanLogs].
    repeat split; cbn; intros t' Hin; intuition (subst; discriminate).
  - exists [Users; Events; Fests; Registrations], [QRScanLogs].
    repeat split; cbn; intros t' Hin; intuition (subst; discriminate).
  - exists [Users; Events; Fests; Registrations; Attendance], [].
    repeat split; cbn; intros t' Hin; intuition (subst; discriminate).
Qed.

Hypothesis accepts : forall d rq, supabase_error d rq = None.

(** The destination table of [t] after the migrations of [run_order]: only
    the migration of [t] has touched it. *)
Lemma accepted_table (src d : tables) (t : table) :
  table_rows (snd (run_tables src run_order d)) (table_name t) =
    match sh_op (shape_of t) with
    | Upsert k =>
        upsert_all k (map (stored_row (shape_of t)) (src_rows src t))
          (table_rows d (table_name t))
    | Insert =>
        (table_rows d (table_name t) ++
         map (stored_row (shape_of t)) (src_rows src t))%list
    end.
Proof.
  rewrite <- !shape_table.
  destruct (run_order_around t) as (pre & post & -> & Hpre & Hpost).
  rewrite run_tables_app. cbn [run_tables snd].
  rewrite (run_tables_other src post _ _ Hpost).
  unfold dest_after. rewrite (rows_dest_accepted accepts).
  destruct (sh_op (shape_of t)) as [k|] eqn:Hop.
  - rewrite (table_rows_upserts _ k _ _ Hop).
    rewrite (run_tables_other src pre _ _ Hpre). reflexivity.
  - rewrite (table_rows_inserts _ _ _ Hop).
    rewrite (run_tables_other src pre _ _ Hpre). reflexivity.
Qed.

(** X6.  When every table can be read and every write is accepted, each of
    the six destination tables ends as what it was before the run with the
    rows of its own source table upserted on the natural key, or appended
    for the two insert-only tables, in source order; no migration changes
    the table of another. *)
Theorem accepted_run_fills_each_table (w : world) (t : table) :
  forallb (readable (source w)) run_order = true ->
  exists w',
    migrateAll w = (Done tt, w') /\
    table_rows (dest w') (table_name t) =
      match sh_op (shape_of t) with
      | Upsert k =>
          upsert_all k (map (stored_row (shape_of t)) (src_rows (source w) t))
            (table_rows (dest w) (table_name t))
      | Insert =>
          (table_rows (dest w) (table_name t) ++
           map (stored_row (shape_of t)) (src_rows (source w) t))%list
      end.
Proof.
  intros Hall.
  pose proof (for_of_completes run_order w Hall) as Hrun.
  pose proof (migrateAll_after_tables w _ Hrun) as Hdone.
  rewrite extend_extend in Hdone.
  eexists. split; [exact Hdone|].
  unfold extend. cbn [dest]. apply accepted_table.
Qed.

End AcceptedRun.

Section FreshKeys.

Variable k : string.


End FreshKeys.

Section FirstRun.

Context `{Externals}.


End FirstRun.

(** ** What the script never asks for *)

Section Sanctioned.

Context `{Externals}.

Lemma tryMigrateAll_stays (P : event -> bool) (w : world) :
  (forall l, P (ConsoleError l) = true) ->
  stays P migrateAll ->
  exists d evs,
    tryMigrateAll w = (Done tt, extend w d evs) /\ forallb P evs = true.
Proof.
  intros He Hs. destruct (Hs w) as (o & d & evs & E & Hevs & Hne).
  unfold tryMigrateAll, try_catch. rewrite E.
  destruct o as [[]|e|n]; [| |contradiction].
  - exists d, evs. split; [reflexivity | exact Hevs].
  - exists d, (evs ++ [ConsoleError (MigrationFailed e)])%list. split.
    + unfold console_error. rewrite emit_extend. reflexivity.
    + rewrite forallb_app, Hevs. cbn. rewrite He. reflexivity.
Qed.

Lemma main_confirmed_stays (P : event -> bool) (w : world) :
  (forall l, P (ConsoleError l) = true) ->
  stays P migrateAll ->
  declined (answer w) = false ->
  exists d evs,
    main w =
      (Done tt,
       extend w d
         (instruction_events ++
          Prompt (answer w) :: ConsoleLog (Text "Starting data migration...") ::
          evs ++ [SrcClose])) /\
    forallb P evs = true.
Proof.
  intros He Hs Hd. unfold main, bind at 1. rewrite instructions_run.
  unfold bind at 1, rl_question. cbn [answer extend emit].
  rewrite Hd. unfold bind at 1, ret. unfold bind at 1, console_log.
  rewrite !emit_extend.
  match goal with |- context [bind tryMigrateAll _ ?w0] =>
    destruct (tryMigrateAll_stays P w0 He Hs) as (d & evs & E & Hevs)
  end.
  exists d, evs. split; [|exact Hevs].
  unfold bind. rewrite E. unfold db_close.
  rewrite extend_extend, emit_extend, <- !app_assoc. reflexivity.
Qed.

Lemma stays_sanctioned_migration (t : table) : stays sanctioned (migration t).
Proof.
  apply stays_migration; try reflexivity.
  - destruct t; reflexivity.
  - intros body err. destruct t; reflexivity.
Qed.

Lemma stays_sanctioned_migrateAll : stays sanctioned migrateAll.
Proof.
  unfold migrateAll.
  apply stays_bind; [apply (stays_sanctioned_migration Users)|]. intros _.
  apply stays_bind; [apply (stays_sanctioned_migration Events)|]. intros _.
  apply stays_bind; [apply (stays_sanctioned_migration Fests)|]. intros _.
  apply stays_bind; [apply (stays_sanctioned_migration Registrations)|]. intros _.
  apply stays_bind; [apply (stays_sanctioned_migration Attendance)|]. intros _.
  apply stays_bind; [apply (stays_sanctioned_migration QRScanLogs)|]. intros _.
  repeat (apply stays_bind;
          [ first [ apply stays_console_log; reflexivity
                  | apply stays_supabase_count; reflexivity ]
          | intros ? ]).
  apply stays_console_log. reflexivity.
Qed.

Lemma sanctioned_spares_notifications (e : event) :
  sanctioned e = true -> mentions "notifications" e = false.
Proof.
  destruct e as [l|l|path|sql| |rq err|n|path|reply]; try reflexivity;
    cbn [sanctioned mentions run_order existsb]; intros Hs;
    repeat (apply orb_prop in Hs; destruct Hs as [Hs | Hs]);
    try discriminate Hs.
  all: try (apply String.eqb_eq in Hs; subst; reflexivity).
  all: apply andb_prop in Hs as [Hs _];
       apply String.eqb_eq in Hs; rewrite Hs; reflexivity.
Qed.

Lemma forallb_implies {A} (P Q : A -> bool) (l : list A) :
  (forall x, P x = true -> Q x = true) ->
  forallb P l = true -> forallb Q l = true.
Proof.
  intros HPQ. induction l as [|x l IH]; cbn; [reflexivity|].
  intros Hl. apply andb_prop in Hl as [Hx Hl].
  rewrite (HPQ x Hx), (IH Hl). reflexivity.
Qed.

(** X8.  Whatever the source holds and the backend answers, a run queries
    the source only with the six whole-table [SELECT]s, writes only to the
    six destination tables, each with the operation and conflict key of its
    function, and counts only [users], [events] and [registrations]; the
    [notifications] table, which the schema creates, is never read, written
    or counted. *)
Theorem script_keeps_to_its_six_tables (w : world) :
  exists o w' evs,
    script w = (o, w') /\
    trace w' = (trace w ++ evs)%list /\
    forallb sanctioned evs = true /\
    forallb (fun e => negb (mentions "notifications" e)) evs = true.
Proof.
  assert (Hgoal : exists o w' evs,
             script w = (o, w') /\ trace w' = (trace w ++ evs)%list /\
             forallb sanctioned evs = true).
  { destruct (key_missing (service_key w)) eqn:Hk.
    - rewrite (script_without_key w Hk). eexists _, _, _.
      split; [reflexivity|]. split; reflexivity.
    - rewrite (script_with_key w Hk).
      destruct (declined (answer w)) eqn:Hd.
      + rewrite main_declined by exact Hd. rewrite extend_extend.
        eexists _, _, _. split; [reflexivity|]. split; reflexivity.
      + destruct (main_confirmed_stays sanctioned
                    (extend w (dest w) [SrcOpen "./data/socio-copy.db"])
                    ltac:(reflexivity) stays_sanctioned_migrateAll Hd)
          as (d & evs & E & Hevs).
        rewrite E, extend_extend. eexists _, _, _.
        split; [reflexivity|]. split; [reflexivity|].
        cbn [app forallb sanctioned]. rewrite forallb_app. cbn [forallb sanctioned].
        rewrite forallb_app, Hevs. reflexivity. }
  destruct Hgoal as (o & w' & evs & E & Htr & Hs).
  exists o, w', evs. repeat (split; [assumption|]).
  apply (forallb_implies sanctioned); [|exact Hs].
  intros e He. rewrite (sanctioned_spares_notifications e He). reflexivity.
Qed.

Lemma allows_no_file_write : allows no_file_write.
Proof. repeat split. Qed.

(** X9.  [main] writes the schema file exactly once, before it asks the
    operator: the file is rewritten on every run that reaches [main], also
    on one the operator declines, and nothing after the prompt writes a
    file. *)
Theorem schema_file_is_written_before_the_prompt (w : world) :
  exists o w' before after,
    main w = (o, w') /\
    trace w' = (trace w ++ before ++ Prompt (answer w) :: after)%list /\
    List.filter is_file_write before = [FileWrite "./supabase-schema.sql"] /\
    List.filter is_file_write after = [].
Proof.
  destruct (declined (answer w)) eqn:Hd.
  - eexists _, _, instruction_events, declined_events.
    split; [apply main_declined, Hd|].
    unfold extend. cbn [trace].
    split; [reflexivity|]. split; reflexivity.
  - destruct (main_confirmed no_file_write w allows_no_file_write Hd)
      as (d & evs & E & Hevs).
    eexists _, _, instruction_events, _.
    split; [exact E|].
    unfold extend. cbn [trace].
    split; [reflexivity|]. split; [reflexivity|].
    cbn [List.filter is_file_write]. rewrite List.filter_app. cbn.
    rewrite app_nil_r. clear E.
    induction evs as [|e evs IH]; [reflexivity|].
    cbn in Hevs. apply andb_prop in Hevs as [He Hevs].
    cbn. unfold no_file_write in He. apply negb_true_iff in He.
    rewrite He. exact (IH Hevs).
Qed.

End Sanctioned.

(** ** A row that cannot be decoded, seen from the whole run *)

Section UndecodableRow.

Context `{Externals}.

Lemma rows_events_apart (t t' : table) (rows : list row) (errs : list (option string)) :
  t <> t' ->
  forallb (fun e => negb (concerns t' e)) (rows_events (shape_of t) rows errs) = true.
Proof.
  intros Hne. revert errs.
  induction rows as [|r rows IH]; intros [|err errs]; try reflexivity.
  cbn [rows_events row_events app forallb]. rewrite IH.
  cbn [concerns request_of rq_table].
  destruct err; destruct t, t'; try reflexivity; contradiction.
Qed.

(** X10.  There is no rollback and no resumption.  When a row of some table
    cannot be decoded, what the earlier tables and the earlier rows of this
    table wrote stays at the destination; the exception is caught by the
    [try] statement of [main] and logged, and neither the later rows of the
    table nor any later table is read or written. *)
Theorem undecodable_row_ends_the_run
  (pre post : list table) (t : table) (w : world)
  (good rest : list row) (bad : row) (e : exn) :
  run_order = (pre ++ t :: post)%list ->
  forallb (readable (source w)) pre = true ->
  source w !! table_name t = Some (good ++ bad :: rest)%list ->
  forallb (decodable (shape_of t)) good = true ->
  sh_payload (shape_of t) bad = Raise e ->
  exists w1 evs1,
    for_of pre migration w = (Done tt, w1) /\
    trace w1 = (trace w ++ evs1)%list /\
    tryMigrateAll w =
      (Done tt,
       extend w1
         (rows_dest (shape_of t) good (answers (shape_of t) good (dest w1)) (dest w1))
         (opening (shape_of t) ++
          rows_events (shape_of t) good (answers (shape_of t) good (dest w1)) ++
          [ConsoleError (MigrationFailed e)])) /\
    forall t', In t' post ->
      forallb (fun ev => negb (concerns t' ev))
        (evs1 ++ opening (shape_of t) ++
         rows_events (shape_of t) good (answers (shape_of t) good (dest w1)) ++
         [ConsoleError (MigrationFailed e)]) = true.
Proof.
  intros Horder Hpre Hsrc Hgood Hbad.
  pose proof (for_of_completes pre w Hpre) as Hrun.
  set (w1 := extend w (snd (run_tables (source w) pre (dest w)))
                      (fst (run_tables (source w) pre (dest w)))) in *.
  assert (Hthrow :
            migration t w1 =
              (Throw e,
               extend w1
                 (rows_dest (shape_of t) good (answers (shape_of t) good (dest w1)) (dest w1))
                 (opening (shape_of t) ++
                  rows_events (shape_of t) good (answers (shape_of t) good (dest w1))))).
  { rewrite (migration_nonempty t w1 (good ++ bad :: rest)).
    - rewrite (for_of_raise _ _ _ _ _ _ Hgood Hbad), extend_extend. reflexivity.
    - destruct good; discriminate.
    - exact Hsrc. }
  exists w1, (fst (run_tables (source w) pre (dest w))).
  split; [exact Hrun|]. split; [reflexivity|]. split.
  - unfold tryMigrateAll, try_catch.
    rewrite (migrateAll_throws pre post t w _ _ _ Horder Hrun Hthrow).
    unfold console_error. rewrite emit_extend, <- app_assoc. reflexivity.
  - intros t' Hin.
    destruct (run_order_later pre post t t' Horder Hin) as [Hnot Hne].
    pose proof (stays_run _ _ _ _ _ _ (stays_apart_all t' pre Hnot) Hrun) as Hevs1.
    rewrite !forallb_app, Hevs1, (rows_events_apart t t' _ _ Hne).
    unfold opening. cbn [forallb concerns andb negb].
    destruct t, t'; try reflexivity; contradiction.
Qed.

End UndecodableRow.

(** * Properties of the inspection script *)

Section Inspection.

Context `{Sqlite}.

Lemma print_count_trace (t : row) (tr : list inspect_event) :
  exists r, print_count t tr = (r, (tr ++ count_events t)%list) /\
            (counted t = true -> r = inl tt) /\
            (counted t = false -> exists e, r = inr e).
Proof.
  unfold print_count, inspect_bind, inspect_get, count_events, counted,
    inspect_log, inspect_throw.
  destruct (sqlite_get (count_sql t)) as [[c|]|].
  - eexists. split; [rewrite <- app_assoc; reflexivity|].
    split; [reflexivity | discriminate].
  - eexists. split; [reflexivity|]. split; [discriminate | eauto].
  - eexists. split; [reflexivity|]. split; [discriminate | eauto].
Qed.

Lemma print_sample_trace (t : row) (tr : list inspect_event) :
  exists r, print_sample t tr = (r, (tr ++ sample_events t)%list) /\
            (sampled t = true -> r = inl tt).
Proof.
  unfold print_sample, inspect_bind, inspect_all, sample_events, sampled, inspect_log.
  destruct (sqlite_all (sample_sql t)) as [rows|].
  - eexists. split; [rewrite <- !app_assoc; reflexivity|]. reflexivity.
  - eexists. split; [rewrite <- !app_assoc; reflexivity|]. discriminate.
Qed.

Section ForEach.

Variable body : row -> IM unit.
Variable ev : row -> list inspect_event.
Variable ok : row -> bool.

Hypothesis body_trace :
  forall t tr, exists r,
    body t tr = (r, (tr ++ ev t)%list) /\ (ok t = true -> r = inl tt).

Lemma for_each_all (ts : list row) (tr : list inspect_event) :
  forallb ok ts = true ->
  inspect_for_each ts body tr = (inl tt, (tr ++ flat_map ev ts)%list).
Proof.
  revert tr. induction ts as [|t ts IH]; intros tr Hall.
  - cbn. unfold inspect_ret. rewrite app_nil_r. reflexivity.
  - cbn in Hall. apply andb_prop in Hall as [Ht Hall].
    destruct (body_trace t tr) as (r & E & Hok).
    cbn [inspect_for_each flat_map]. unfold inspect_bind. rewrite E, (Hok Ht).
    rewrite (IH _ Hall), <- app_assoc. reflexivity.
Qed.

Lemma for_each_stops (good rest : list row) (bad : row) (tr : list inspect_event)
  (e : inspect_exn) :
  forallb ok good = true ->
  body bad (tr ++ flat_map ev good)%list = (inr e, (tr ++ flat_map ev good ++ ev bad)%list) ->
  inspect_for_each (good ++ bad :: rest) body tr =
    (inr e, (tr ++ flat_map ev good ++ ev bad)%list).
Proof.
  revert tr. induction good as [|t good IH]; intros tr Hall Hbad.
  - cbn in *. unfold inspect_bind. rewrite app_nil_r in Hbad. rewrite Hbad. reflexivity.
  - cbn in Hall. apply andb_prop in Hall as [Ht Hall].
    destruct (body_trace t tr) as (r & E & Hok).
    cbn [app inspect_for_each flat_map]. unfold inspect_bind. rewrite E, (Hok Ht).
    cbn [flat_map] in Hbad. rewrite <- !app_assoc in Hbad.
    rewrite (IH (tr ++ ev t)%list Hall).
    + rewrite <- !app_assoc. reflexivity.
    + rewrite <- !app_assoc. rewrite app_assoc in Hbad.
      rewrite <- app_assoc in Hbad. exact Hbad.
Qed.

(** Whatever happens, the loop has run the callback on a first part of the
    list. *)
Lemma for_each_prefix (ts : list row) (tr : list inspect_event) :
  exists r n,
    inspect_for_each ts body tr = (r, (tr ++ flat_map ev (firstn n ts))%list).
Proof.
  revert tr. induction ts as [|t ts IH]; intros tr.
  - exists (inl tt), 0%nat. cbn. unfold inspect_ret. rewrite app_nil_r. reflexivity.
  - destruct (body_trace t tr) as (r & E & _).
    cbn [inspect_for_each]. unfold inspect_bind. rewrite E.
    destruct r as [[]|e].
    + destruct (IH (tr ++ ev t)%list) as (r' & n & E'). rewrite E'.
      exists r', (S n). cbn [firstn flat_map]. rewrite <- app_assoc. reflexivity.
    + exists (inr e), 1%nat. cbn [firstn flat_map]. rewrite app_nil_r. reflexivity.
Qed.

End ForEach.

Lemma filter_flat_map_prepared (f : row -> string) (ev : row -> list inspect_event)
  (ts : list row) :
  (forall t, List.filter is_prepared (ev t) = [Prepared (f t)]) ->
  List.filter is_prepared (flat_map ev ts) = map (fun t => Prepared (f t)) ts.
Proof.
  intros Hev. induction ts as [|t ts IH]; [reflexivity|].
  cbn [flat_map map]. rewrite List.filter_app, Hev, IH. reflexivity.
Qed.

Lemma count_events_prepared (t : row) :
  List.filter is_prepared (count_events t) = [Prepared (count_sql t)].
Proof.
  unfold count_events. destruct (sqlite_get (count_sql t)) as [[c|]|]; reflexivity.
Qed.

Lemma sample_events_prepared (t : row) :
  List.filter is_prepared (sample_events t) = [Prepared (sample_sql t)].
Proof.
  unfold sample_events. destruct (sqlite_all (sample_sql t)); reflexivity.
Qed.

(** X11.  When the catalogue query and the count and sample statements of
    every listed table succeed, the inspection script opens the file,
    prints the header, the count line of every table and then the sample of
    every table, in catalogue order, and closes the file last; it prepares
    one statement for the catalogue and two per table, all the counts
    before the first sample.  With no table listed it prints the header and
    closes. *)
Theorem inspector_counts_then_samples (tables : list row) :
  sqlite_all "SELECT name FROM sqlite_master WHERE type='table'" = Some tables ->
  forallb counted tables = true ->
  forallb sampled tables = true ->
  inspector [] =
    (inl tt,
     [ Opened "./data/socio-copy.db";
       Prepared "SELECT name FROM sqlite_master WHERE type='table'";
       Printed (Line "Tables in database:") ] ++
     flat_map count_events tables ++ flat_map sample_events tables ++ [Closed])%list /\
  List.filter is_prepared (snd (inspector [])) =
    (Prepared "SELECT name FROM sqlite_master WHERE type='table'" ::
     map (fun t => Prepared (count_sql t)) tables ++
     map (fun t => Prepared (sample_sql t)) tables)%list.
Proof.
  intros Hcat Hcount Hsample.
  assert (Hrun : inspector [] =
    (inl tt,
     [ Opened "./data/socio-copy.db";
       Prepared "SELECT name FROM sqlite_master WHERE type='table'";
       Printed (Line "Tables in database:") ] ++
     flat_map count_events tables ++ flat_map sample_events tables ++ [Closed])%list).
  { unfold inspector, inspect_bind at 1, inspect_open. cbn [app].
    unfold inspect_bind at 1, inspect_all. rewrite Hcat. cbn [app].
    unfold inspect_bind at 1, inspect_log. cbn [app].
    unfold inspect_bind at 1.
    rewrite (for_each_all print_count count_events counted).
    - unfold inspect_bind at 1.
      rewrite (for_each_all print_sample sample_events sampled).
      + unfold inspect_close. rewrite <- !app_assoc. reflexivity.
      + intros t tr. destruct (print_sample_trace t tr) as (r & E & Hok). eauto.
      + exact Hsample.
    - intros t tr. destruct (print_count_trace t tr) as (r & E & Hok & _). eauto.
    - exact Hcount. }
  split; [exact Hrun|].
  rewrite Hrun. cbn [snd app List.filter is_prepared].
  rewrite !List.filter_app.
  rewrite (filter_flat_map_prepared count_sql count_events tables count_events_prepared).
  rewrite (filter_flat_map_prepared sample_sql sample_events tables sample_events_prepared).
  cbn. rewrite app_nil_r. reflexivity.
Qed.

(** X12.  The counts of all tables come before any sample, and nothing is
    caught: when the count statement of a listed table throws, or yields no
    row, the script ends with that exception after the counts of the tables
    listed before it; no sample of any table is printed and the file is not
    closed. *)
Theorem failed_count_prints_no_sample (good rest : list row) (bad : row) :
  sqlite_all "SELECT name FROM sqlite_master WHERE type='table'"
    = Some (good ++ bad :: rest)%list ->
  forallb counted good = true ->
  counted bad = false ->
  exists e tr,
    inspector [] = (inr e, tr) /\
    List.filter is_prepared tr =
      (Prepared "SELECT name FROM sqlite_master WHERE type='table'" ::
       map (fun t => Prepared (count_sql t)) good ++ [Prepared (count_sql bad)])%list /\
    List.filter is_json tr = [] /\
    List.filter is_closed tr = [].
Proof.
  intros Hcat Hgood Hbad.
  set (tr0 := [ Opened "./data/socio-copy.db";
                Prepared "SELECT name FROM sqlite_master WHERE type='table'";
                Printed (Line "Tables in database:") ]).
  destruct (print_count_trace bad (tr0 ++ flat_map count_events good)%list)
    as (r & E & _ & Hfail).
  destruct (Hfail Hbad) as (e & ->).
  rewrite <- app_assoc in E.
  exists e, (tr0 ++ flat_map count_events good ++ count_events bad)%list.
  split.
  - unfold inspector, inspect_bind at 1, inspect_open. cbn [app].
    unfold inspect_bind at 1, inspect_all. rewrite Hcat. cbn [app].
    unfold inspect_bind at 1, inspect_log. cbn [app].
    unfold inspect_bind at 1. fold tr0.
    rewrite (for_each_stops print_count count_events counted) with (e := e).
    + reflexivity.
    + intros t tr. destruct (print_count_trace t tr) as (r & Er & Hok & _). eauto.
    + exact Hgood.
    + exact E.
  - assert (Hjson : forall ts, List.filter is_json (flat_map count_events ts) = []).
    { induction ts as [|t ts IH]; [reflexivity|].
      cbn [flat_map]. rewrite List.filter_app, IH, app_nil_r.
      unfold count_events. destruct (sqlite_get (count_sql t)) as [[c|]|]; reflexivity. }
    assert (Hclosed : forall ts, List.filter is_closed (flat_map count_events ts) = []).
    { induction ts as [|t ts IH]; [reflexivity|].
      cbn [flat_map]. rewrite List.filter_app, IH, app_nil_r.
      unfold count_events. destruct (sqlite_get (count_sql t)) as [[c|]|]; reflexivity. }
    rewrite !List.filter_app.
    rewrite (filter_flat_map_prepared count_sql count_events good count_events_prepared).
    rewrite count_events_prepared, Hjson, Hclosed.
    pose proof (Hjson [bad]) as Hj. pose proof (Hclosed [bad]) as Hc.
    cbn [flat_map] in Hj, Hc. rewrite app_nil_r in Hj, Hc. rewrite Hj, Hc.
    repeat split.
Qed.

Lemma count_events_select (t : row) : forallb selects_only (count_events t) = true.
Proof.
  unfold count_events. destruct (sqlite_get (count_sql t)) as [[c|]|]; reflexivity.
Qed.

Lemma sample_events_select (t : row) : forallb selects_only (sample_events t) = true.
Proof.
  unfold sample_events. destruct (sqlite_all (sample_sql t)); reflexivity.
Qed.

Lemma flat_map_select (ev : row -> list inspect_event) (ts : list row) :
  (forall t, forallb selects_only (ev t) = true) ->
  forallb selects_only (flat_map ev ts) = true.
Proof.
  intros Hev. induction ts as [|t ts IH]; [reflexivity|].
  cbn [flat_map]. rewrite forallb_app, Hev, IH. reflexivity.
Qed.

(** X13.  Whatever the file holds and whichever statement fails, every
    statement the inspection script prepares is a [SELECT]: the script
    opens the file once, at the start, and never writes to it. *)
Theorem inspector_only_selects :
  exists r tr,
    inspector [] = (r, Opened "./data/socio-copy.db" :: tr) /\
    forallb selects_only tr = true.
Proof.
  unfold inspector, inspect_bind at 1, inspect_open. cbn [app].
  unfold inspect_bind at 1, inspect_all.
  destruct (sqlite_all "SELECT name FROM sqlite_master WHERE type='table'")
    as [tables|]; cbn [app].
  - unfold inspect_bind at 1, inspect_log. cbn [app].
    set (tr0 := [ Opened "./data/socio-copy.db";
                  Prepared "SELECT name FROM sqlite_master WHERE type='table'";
                  Printed (Line "Tables in database:") ]).
    destruct (for_each_prefix print_count count_events counted
                ltac:(intros t tr; destruct (print_count_trace t tr) as (r & E & Hok & _); eauto)
                tables tr0) as (r1 & n1 & E1).
    unfold inspect_bind at 1. rewrite E1.
    pose proof (flat_map_select count_events (firstn n1 tables) count_events_select)
      as Hcounts.
    destruct r1 as [[]|e1].
    + destruct (for_each_prefix print_sample sample_events sampled
                  ltac:(intros t tr; destruct (print_sample_trace t tr) as (r & E & Hok); eauto)
                  tables (tr0 ++ flat_map count_events (firstn n1 tables))%list)
        as (r2 & n2 & E2).
      unfold inspect_bind. rewrite E2.
      pose proof (flat_map_select sample_events (firstn n2 tables) sample_events_select)
        as Hsamples.
      destruct r2 as [[]|e2]; unfold inspect_close.
      * exists (inl tt),
          ([ Prepared "SELECT name FROM sqlite_master WHERE type='table'";
             Printed (Line "Tables in database:") ] ++
           flat_map count_events (firstn n1 tables) ++
           flat_map sample_events (firstn n2 tables) ++ [Closed])%list.
        split; [unfold tr0; rewrite <- !app_assoc; reflexivity|].
        rewrite !forallb_app, Hcounts, Hsamples. reflexivity.
      * exists (inr e2),
          ([ Prepared "SELECT name FROM sqlite_master WHERE type='table'";
             Printed (Line "Tables in database:") ] ++
           flat_map count_events (firstn n1 tables) ++
           flat_map sample_events (firstn n2 tables))%list.
        split; [unfold tr0; rewrite <- !app_assoc; reflexivity|].
        rewrite !forallb_app, Hcounts, Hsamples. reflexivity.
    + exists (inr e1),
        ([ Prepared "SELECT name FROM sqlite_master WHERE type='table'";
           Printed (Line "Tables in database:") ] ++
         flat_map count_events (firstn n1 tables))%list.
      split; [reflexivity|].
      rewrite !forallb_app, Hcounts. reflexivity.
  - eexists _, _. split; [reflexivity|]. reflexivity.
Qed.

End Inspection.

(** * Concrete runs, continued *)

(** X2: the [id] of a user. *)
Lemma payload_ignores_unlisted_columns_witness :
  @payload accepting Users (<["id" := JNum 99]> alice) = @payload accepting Users alice /\
  alice !! "id" = Some (JNum 7).
Proof.
  split; [|reflexivity].
  apply (@payload_ignores_unlisted_columns accepting Users "id" (JNum 99) alice).
  cbn. intuition discriminate.
Defined.

(** X3: the first event holds null in [total_participants]. *)
Lemma total_participants_defaults_to_zero_witness :
  prop opening_night "total_participants" = JNull /\
  field "total_participants" (body_of (@shape_of accepting Events) opening_night) =
    Some (JNum 0).
Proof.
  split; [reflexivity|].
  destruct (@total_participants_defaults_to_zero accepting opening_night
              (body_of (@shape_of accepting Events) opening_night))
    as (_ & Hzero & _); [reflexivity|].
  apply Hzero. reflexivity.
Defined.

(** X4: every write is refused, and the run still reports completion. *)
Lemma run_completes_whatever_the_backend_answers_witness :
  exists w' evs,
    @migrateAll offline full_world = (Done tt, w') /\
    trace w' = evs /\
    length (List.filter is_dest_write evs) = 4%nat /\
    length (List.filter is_row_error evs) = 4%nat /\
    In (ConsoleLog (Text "Migration completed successfully!")) evs.
Proof.
  destruct (@run_completes_whatever_the_backend_answers offline full_world)
    as (w' & evs & E & _ & Htr & _ & Hwrites & Hbanner); [reflexivity|].
  exists w', evs. split; [exact E|]. split; [exact Htr|].
  split; [exact Hwrites|]. split; [|exact Hbanner].
  cbn [trace full_world fresh app] in Htr. rewrite <- Htr.
  assert (Hw : w' = snd (@migrateAll offline full_world)) by (rewrite E; reflexivity).
  rewrite Hw. reflexivity.
Defined.

(** X5: two users, one event and no registration have been written, and
    the count of [events] is answered with an error. *)
Lemma verification_counts_three_tables_witness :
  exists w',
    @migrateAll (uncounted "events") full_world = (Done tt, w') /\
    List.filter is_count_line (trace w') =
      [ ConsoleLog (RowCount "Users in Supabase" (Some 2%nat));
        ConsoleLog (RowCount "Events in Supabase" None);
        ConsoleLog (RowCount "Registrations in Supabase" (Some 0%nat)) ] /\
    List.filter is_console_error (trace w') = [].
Proof.
  destruct (@verification_counts_three_tables (uncounted "events") full_world)
    as (w' & before & E & _ & _ & _); [reflexivity|].
  exists w'. split; [exact E|].
  assert (Hw : w' = snd (@migrateAll (uncounted "events") full_world))
    by (rewrite E; reflexivity).
  rewrite Hw. split; reflexivity.
Defined.

(** X6: the attendance table of the full source. *)
Lemma accepted_run_fills_each_table_witness :
  exists w',
    @migrateAll accepting full_world = (Done tt, w') /\
    table_rows (dest w') "attendance_status" =
      [stored_row (@shape_of accepting Attendance) first_scan].
Proof.
  destruct (@accepted_run_fills_each_table accepting
              ltac:(intros d rq; reflexivity) full_world Attendance)
    as (w' & E & Htable); [reflexivity|].
  exists w'. split; [exact E|]. exact Htable.
Defined.


(** X10: the second event of the broken source does not decode. *)
Lemma undecodable_row_ends_the_run_witness :
  exists w1 w',
    for_of [Users] (@migration accepting) broken_world = (Done tt, w1) /\
    @tryMigrateAll accepting broken_world = (Done tt, w') /\
    table_rows (dest w') "users" = [stored_row (@shape_of accepting Users) alice] /\
    table_rows (dest w') "events" =
      [stored_row (@shape_of accepting Events) opening_night] /\
    table_rows (dest w') "attendance_status" = [].
Proof.
  destruct (@undecodable_row_ends_the_run accepting
              [Users] [Fests; Registrations; Attendance; QRScanLogs] Events
              broken_world [opening_night] [closing_night] broken_rules
              (SyntaxError (JStr "{oops")))
    as (w1 & evs1 & Hpre & _ & Htry & _).
  - reflexivity.
  - reflexivity.
  - reflexivity.
  - reflexivity.
  - reflexivity.
  - eexists w1, _. split; [exact Hpre|]. split; [exact Htry|].
    assert (Hw : w1 = snd (for_of [Users] (@migration accepting) broken_world))
      by (rewrite Hpre; reflexivity).
    rewrite Hw. repeat split.
Defined.

(** X11: a file with the tables [users] and [events]. *)
Lemma inspector_counts_then_samples_witness :
  fst (@inspector two_tables []) = inl tt /\
  List.filter is_prepared (snd (@inspector two_tables [])) =
    [ Prepared "SELECT name FROM sqlite_master WHERE type='table'";
      Prepared "SELECT COUNT(*) as count FROM users";
      Prepared "SELECT COUNT(*) as count FROM events";
      Prepared "SELECT * FROM users LIMIT 3";
      Prepared "SELECT * FROM events LIMIT 3" ] /\
  In (Printed (Line "  users: 2 rows")) (snd (@inspector two_tables [])).
Proof.
  destruct (@inspector_counts_then_samples two_tables
              [obj [("name", JStr "users")]; obj [("name", JStr "events")]])
    as [Hrun Hprepared]; [reflexivity | reflexivity | reflexivity |].
  rewrite Hprepared, Hrun. split; [reflexivity|]. split; [reflexivity|].
  cbn [snd]. right. right. right. right. left. reflexivity.
Defined.

(** X12: the count of the table named [order] cannot be prepared. *)
Lemma failed_count_prints_no_sample_witness :
  exists e tr,
    @inspector keyword_table [] = (inr e, tr) /\
    List.filter is_prepared tr =
      [ Prepared "SELECT name FROM sqlite_master WHERE type='table'";
        Prepared "SELECT COUNT(*) as count FROM users";
        Prepared "SELECT COUNT(*) as count FROM order" ] /\
    List.filter is_json tr = [] /\
    List.filter is_closed tr = [].
Proof.
  destruct (@failed_count_prints_no_sample keyword_table
              [obj [("name", JStr "users")]] [obj [("name", JStr "events")]]
              (obj [("name", JStr "order")]))
    as (e & tr & E & Hprepared & Hjson & Hclosed);
    [reflexivity | reflexivity | reflexivity |].
  exists e, tr. split; [exact E|]. split; [exact Hprepared|].
  split; [exact Hjson | exact Hclosed].
Defined.
